(** * The ID generation request worker

    A shallow embedding of [id_generation_request_worker]
    (openg2p_sr_celery_workers/tasks/id_generation_request.py) and the
    properties of its retry bookkeeping.

    The worker is one Celery task.  It talks to four collaborators: the
    SQLAlchemy session, the OAuth token service, the MOSIP endpoint (through
    httpx) and the clock.  Their answers are collected in an [Env]; the
    session is explicit state; exceptions are an error result.  The worker
    itself is written in a small state-and-exception monad so that it can be
    read side by side with the Python. *)

From Stdlib Require Import ZArith Lia.
From Corelib Require Import PrimFloat.
From stdpp Require Import base list strings pretty.

Set Warnings "-register-all".
Open Scope Z_scope.

(** ** Values *)

(** What [response.json()] yields: Python's [None], [bool], [int], [float],
    [str], [list] and [dict].  A [dict] is kept as its items; a key is looked
    up from the front. *)
Inductive json : Type :=
| JNull
| JBool (b : bool)
| JInt (n : Z)
| JFloat (x : float)
| JStr (s : string)
| JArr (items : list json)
| JObj (items : list (string * json)).

(** Python's truth value of such an object, the [not uin] of line 65. *)
Definition truthy (v : json) : bool :=
  match v with
  | JNull => false
  | JBool b => b
  | JInt n => negb (n =? 0)
  | JFloat x => negb (PrimFloat.eqb x 0%float)
  | JStr s => negb (String.eqb s "")
  | JArr items => match items with [] => false | _ => true end
  | JObj items => match items with [] => false | _ => true end
  end.

(** [type(v).__name__], as it appears in the interpreter's messages. *)
Definition type_name (v : json) : string :=
  match v with
  | JNull => "NoneType"
  | JBool _ => "bool"
  | JInt _ => "int"
  | JFloat _ => "float"
  | JStr _ => "str"
  | JArr _ => "list"
  | JObj _ => "dict"
  end.

Fixpoint dict_lookup (key : string) (items : list (string * json)) : option json :=
  match items with
  | [] => None
  | (k, v) :: rest => if String.eqb k key then Some v else dict_lookup key rest
  end.

Definition datetime := Z.

(** ** Exceptions *)

(** Every exception the [try] block can see.  The first five are the
    [raise Exception(...)] of the worker, the next three are raised by the
    interpreter on line 63, and [LibraryError] stands for whatever a
    collaborator raises (token service, httpx, JSON decoding, the database
    driver, a commit), carrying its text. *)
Inductive Exc : Type :=
| NoAccessToken
| MosipCallFailed (status_code : Z)
| UinNotReceived
| NoResPartner (registrant_id : string)
| UinAlreadyPresent (uin : string)
| AttributeError (msg : string)
| TypeError (msg : string)
| KeyError (key : string)
| LibraryError (msg : string).

(** [str(e)]. *)
Definition str_exc (e : Exc) : string :=
  match e with
  | NoAccessToken => "Failed to retrieve access token from token response"
  | MosipCallFailed status_code =>
      "MOSIP Get UIN API call failed with status code " +:+ pretty status_code
  | UinNotReceived => "UIN not received from MOSIP"
  | NoResPartner registrant_id =>
      "No res_partner entry found for registrant_id: " +:+ registrant_id
  | UinAlreadyPresent uin =>
      "MOSIP ID " +:+ uin +:+ " is already present in res_partner.unique_id"
  | AttributeError msg => msg
  | TypeError msg => msg
  | KeyError key => "'" +:+ key +:+ "'"
  | LibraryError msg => msg
  end.

(** ** The persisted records *)

(** Modelled from the spec: the enumerations and the two row types of
    [openg2p_sr_models.models], which the worker imports.  Only the
    attributes the worker touches are kept.  The update status is
    "{PENDING, ...}" in the spec; its other members are not named there. *)
Module IDGenerationRequestStatus.
Inductive t : Type := PENDING | COMPLETED | FAILED.
End IDGenerationRequestStatus.

Module IDGenerationUpdateStatus.
Inductive t : Type := PENDING | OTHER (name : string).
End IDGenerationUpdateStatus.

Record G2PQueIDGeneration : Type := {
  registrant_id : string;
  number_of_attempts_request : Z;
  id_generation_request_status : IDGenerationRequestStatus.t;
  id_generation_update_status : IDGenerationUpdateStatus.t;
  last_attempt_datetime_request : option datetime;
  last_attempt_error_code_request : option string
}.

Record ResPartner : Type := {
  id : string;
  unique_id : option string
}.

(** The two tables.  A row is identified by its position, and [.first()]
    takes the first row in table order that passes the filter. *)
Record Store : Type := {
  g2p_que_id_generation : list G2PQueIDGeneration;
  res_partner : list ResPartner
}.

(** ** Configuration and collaborators *)

(** What the worker reads of [_config]. *)
Record Settings : Type := {
  mosip_get_uin_url : string;
  max_id_generation_request_attempts : Z
}.

Record Response : Type := {
  status_code : Z;
  (** [response.json()]: the decoded body, or the decoder's error. *)
  body_json : string + json
}.

(** The answers of the collaborators during one invocation.  A [string] on
    the left of a sum is the text of the exception the call raises.
    - [get_oauth_token]: what [OAuthTokenService.get_component().get_oauth_token()]
      returns ([None] or a string);
    - [httpx_get url headers]: what [httpx.get] returns;
    - [session_commit k]: whether the [k]-th [session.commit()] of the
      invocation raises;
    - [datetime_utcnow k]: the [k]-th reading of the clock;
    - [binds u]: whether the database driver can bind the string [u]
      against the text column [unique_id] (it refuses, for one, a string
      with a NUL character);
    - [bind_error v]: the driver's complaint when it refuses to bind [v],
      a value that is not a string or a string it cannot bind;
    - [pending_rollback_error msg]: the text of the error the session
      raises when it is used again after a commit failed with [msg]. *)
Record Env : Type := {
  get_oauth_token : string + option string;
  httpx_get : string → list (string * string) → string + Response;
  session_commit : nat → option string;
  datetime_utcnow : nat → datetime;
  binds : string → bool;
  bind_error : json → string;
  pending_rollback_error : string → string
}.

(** ** What an invocation does to the outside *)

Inductive Event : Type :=
| LogInfo (msg : string)
| LogInfoUinData (mosip_data : json)
| LogError (msg : string)
| TokenRequested
| HttpGet (url : string) (headers : list (string * string))
| Commit (db : Store)
| CommitFailed.

(** ** The session *)

(** [db] is what has been committed.  [objects] is the session's view: the
    rows as loaded, with the attribute assignments made since the last
    commit.  Queries run against [objects] (the session flushes before a
    query).  The session is made with [expire_on_commit=False]: after a
    commit that went through, the loaded objects are used as they are.  A
    failed commit raises, leaves [db] alone and rolls the session back: the
    assignments are gone, the objects are expired, and [failed] holds the
    error with which the session answers every further query, attribute
    load and commit (the worker never calls [session.rollback()]). *)
Record Session : Type := {
  db : Store;
  objects : Store;
  commits : nat;
  clock : nat;
  trace : list Event;
  failed : option string
}.

Definition open_session (st : Store) : Session :=
  {| db := st; objects := st; failed := None; commits := 0; clock := 0; trace := [] |}.

(** ** State and exceptions *)

Inductive Result (A : Type) : Type :=
| Ok (a : A) (s : Session)
| Raise (e : Exc) (s : Session).
Arguments Ok {A} a s.
Arguments Raise {A} e s.

Definition M (A : Type) : Type := Session → Result A.

#[global] Instance M_ret : MRet M := fun A a s => Ok a s.

#[global] Instance M_bind : MBind M := fun A B k m s =>
  match m s with
  | Ok a s' => k a s'
  | Raise e s' => Raise e s'
  end.

Definition raise {A} (e : Exc) : M A := fun s => Raise e s.

Definition try_except {A} (body : M A) (handler : Exc → M A) : M A :=
  fun s => match body s with
           | Ok a s' => Ok a s'
           | Raise e s' => handler e s'
           end.

Definition final_session {A} (r : Result A) : Session :=
  match r with Ok _ s => s | Raise _ s => s end.

Definition returns_normally {A} (r : Result A) : bool :=
  match r with Ok _ _ => true | Raise _ _ => false end.

(** ** Session primitives *)

Definition emit (ev : Event) : M unit := fun s =>
  Ok tt {| db := db s; objects := objects s; failed := failed s; commits := commits s;
           clock := clock s; trace := trace s ++ [ev] |}.

Definition logger_info (msg : string) : M unit := emit (LogInfo msg).
Definition logger_error (msg : string) : M unit := emit (LogError msg).

(** [datetime.utcnow()] *)
Definition utcnow (env : Env) : M datetime := fun s =>
  Ok (datetime_utcnow env (clock s))
     {| db := db s; objects := objects s; failed := failed s; commits := commits s;
        clock := S (clock s); trace := trace s |}.

(** A use of the session that emits SQL: refused once a commit has failed. *)
Definition session_use {A} (k : M A) : M A := fun s =>
  match failed s with
  | Some text => Raise (LibraryError text) s
  | None => k s
  end.

(** [session.commit()]: the session's objects become the committed rows, or
    the commit raises (its flush failing), nothing is written and the
    session is rolled back. *)
Definition commit (env : Env) : M unit := session_use (fun s =>
  match session_commit env (commits s) with
  | None =>
      Ok tt {| db := objects s; objects := objects s; failed := None;
               commits := S (commits s); clock := clock s;
               trace := trace s ++ [Commit (objects s)] |}
  | Some msg =>
      Raise (LibraryError msg)
            {| db := db s; objects := db s;
               failed := Some (pending_rollback_error env msg);
               commits := S (commits s); clock := clock s;
               trace := trace s ++ [CommitFailed] |}
  end).

(** [.filter(...).first()] over a table: the first row that passes, with
    its position, which stands for the loaded object. *)
Definition first_queue_entry (r : string) (st : Store)
    : option (nat * G2PQueIDGeneration) :=
  list_find (λ q, registrant_id q = r) (g2p_que_id_generation st).

Definition first_res_partner (r : string) (st : Store) : option (nat * ResPartner) :=
  list_find (λ p, id p = r) (res_partner st).

Definition first_partner_with_uin (u : string) (st : Store)
    : option (nat * ResPartner) :=
  list_find (λ p, unique_id p = Some u) (res_partner st).

(** [session.query(G2PQueIDGeneration)
       .filter(G2PQueIDGeneration.registrant_id == registrant_id).first()] *)
Definition query_queue_entry (r : string) : M (option nat) :=
  session_use (fun s => Ok (fst <$> first_queue_entry r (objects s)) s).

(** [session.query(ResPartner).filter(ResPartner.id == registrant_id).first()] *)
Definition query_res_partner (r : string) : M (option nat) :=
  session_use (fun s => Ok (fst <$> first_res_partner r (objects s)) s).

(** The text the driver binds for [uin] against [unique_id], a text
    column: a string it accepts; nothing for any other value. *)
Definition bound_text (env : Env) (uin : json) : option string :=
  match uin with
  | JStr u => if binds env u then Some u else None
  | _ => None
  end.

(** [session.query(ResPartner).filter(ResPartner.unique_id == uin).first()]:
    a value the driver binds is compared with the stored values (a row
    without identifier never matches); for any other the query raises. *)
Definition query_partner_with_uin (env : Env) (uin : json) : M (option nat) :=
  match bound_text env uin with
  | Some u =>
      session_use (fun s => Ok (fst <$> first_partner_with_uin u (objects s)) s)
  | None => raise (LibraryError (bind_error env uin))
  end.

(** Reading an attribute of a loaded object, as [+=] does first: the session
    loads it again when it has expired the object, which a rolled back
    session refuses. *)
Definition load_queue_entry (i : nat) : M unit :=
  session_use (fun s => Ok tt s).

(** Attribute assignment on a loaded object: the row at that position of the
    session's objects changes, and every later read sees it. *)
Definition modify_queue_entry (i : nat)
    (f : G2PQueIDGeneration → G2PQueIDGeneration) : M unit := fun s =>
  Ok tt {| db := db s;
           objects := {| g2p_que_id_generation :=
                           alter f i (g2p_que_id_generation (objects s));
                         res_partner := res_partner (objects s) |};
           failed := failed s; commits := commits s; clock := clock s; trace := trace s |}.

Definition modify_res_partner (j : nat) (f : ResPartner → ResPartner) : M unit :=
  fun s =>
  Ok tt {| db := db s;
           objects := {| g2p_que_id_generation := g2p_que_id_generation (objects s);
                         res_partner := alter f j (res_partner (objects s)) |};
           failed := failed s; commits := commits s; clock := clock s; trace := trace s |}.

(** The assignments themselves. *)
Definition incr_number_of_attempts_request (q : G2PQueIDGeneration) :=
  {| registrant_id := registrant_id q;
     number_of_attempts_request := number_of_attempts_request q + 1;
     id_generation_request_status := id_generation_request_status q;
     id_generation_update_status := id_generation_update_status q;
     last_attempt_datetime_request := last_attempt_datetime_request q;
     last_attempt_error_code_request := last_attempt_error_code_request q |}.

Definition set_id_generation_request_status (v : IDGenerationRequestStatus.t)
    (q : G2PQueIDGeneration) :=
  {| registrant_id := registrant_id q;
     number_of_attempts_request := number_of_attempts_request q;
     id_generation_request_status := v;
     id_generation_update_status := id_generation_update_status q;
     last_attempt_datetime_request := last_attempt_datetime_request q;
     last_attempt_error_code_request := last_attempt_error_code_request q |}.

Definition set_id_generation_update_status (v : IDGenerationUpdateStatus.t)
    (q : G2PQueIDGeneration) :=
  {| registrant_id := registrant_id q;
     number_of_attempts_request := number_of_attempts_request q;
     id_generation_request_status := id_generation_request_status q;
     id_generation_update_status := v;
     last_attempt_datetime_request := last_attempt_datetime_request q;
     last_attempt_error_code_request := last_attempt_error_code_request q |}.

Definition set_last_attempt_datetime_request (v : option datetime)
    (q : G2PQueIDGeneration) :=
  {| registrant_id := registrant_id q;
     number_of_attempts_request := number_of_attempts_request q;
     id_generation_request_status := id_generation_request_status q;
     id_generation_update_status := id_generation_update_status q;
     last_attempt_datetime_request := v;
     last_attempt_error_code_request := last_attempt_error_code_request q |}.

Definition set_last_attempt_error_code_request (v : option string)
    (q : G2PQueIDGeneration) :=
  {| registrant_id := registrant_id q;
     number_of_attempts_request := number_of_attempts_request q;
     id_generation_request_status := id_generation_request_status q;
     id_generation_update_status := id_generation_update_status q;
     last_attempt_datetime_request := last_attempt_datetime_request q;
     last_attempt_error_code_request := v |}.

Definition set_unique_id (v : option string) (p : ResPartner) :=
  {| id := id p; unique_id := v |}.

(** ** Collaborators *)

(** [OAuthTokenService.get_component().get_oauth_token()] *)
Definition oauth_token (env : Env) : M (option string) :=
  emit TokenRequested;;
  match get_oauth_token env with
  | inl msg => raise (LibraryError msg)
  | inr tok => mret tok
  end.

(** [httpx.get(url, headers=headers)] *)
Definition http_get (env : Env) (url : string) (headers : list (string * string))
    : M Response :=
  emit (HttpGet url headers);;
  match httpx_get env url headers with
  | inl msg => raise (LibraryError msg)
  | inr response => mret response
  end.

(** [response.json()] *)
Definition response_json (response : Response) : M json :=
  match body_json response with
  | inl msg => raise (LibraryError msg)
  | inr v => mret v
  end.

(** [d.get(key)]: only a [dict] has the method; a missing key gives [None]. *)
Definition py_get (d : json) (key : string) : Exc + json :=
  match d with
  | JObj items => inr (default JNull (dict_lookup key items))
  | v => inl (AttributeError
                ("'" +:+ type_name v +:+ "' object has no attribute 'get'"))
  end.

(** [r[key]] with a string key (messages of CPython 3.11 and later). *)
Definition py_getitem (r : json) (key : string) : Exc + json :=
  match r with
  | JObj items =>
      match dict_lookup key items with
      | Some v => inr v
      | None => inl (KeyError key)
      end
  | JArr _ => inl (TypeError "list indices must be integers or slices, not str")
  | JStr _ => inl (TypeError "string indices must be integers, not 'str'")
  | v => inl (TypeError ("'" +:+ type_name v +:+ "' object is not subscriptable"))
  end.

(** [mosip_data.get("response")["uin"]], line 63. *)
Definition response_uin (mosip_data : json) : Exc + json :=
  match py_get mosip_data "response" with
  | inl e => inl e
  | inr r => py_getitem r "uin"
  end.

(** An expression that touches no state: its value, or its exception. *)
Definition eval {A} (x : Exc + A) : M A :=
  match x with
  | inl e => raise e
  | inr a => mret a
  end.

(** ** The worker *)

(** The [headers] of line 50. *)
Definition request_headers (access_token : string) : list (string * string) :=
  [("Cookie", "Authorization=" +:+ access_token); ("Accept", "application/json")].

(** Lines 43-66: token, call to MOSIP, extraction of the UIN. *)
Definition fetch_uin (env : Env) (_config : Settings) : M json :=
  (* Get OIDC token *)
  access_token ← oauth_token env;
  logger_info "Received access token";;
  match access_token with
  | None => raise NoAccessToken
  | Some token =>
      if String.eqb token "" then raise NoAccessToken else
      let headers := request_headers token in
      response ← http_get env (mosip_get_uin_url _config) headers;
      if negb (status_code response =? 200)
      then raise (MosipCallFailed (status_code response)) else
      mosip_data ← response_json response;
      emit (LogInfoUinData mosip_data);;
      uin ← eval (response_uin mosip_data);
      if negb (truthy uin) then raise UinNotReceived else
      mret uin
  end.

(** Lines 68-89: the registrant is loaded, the UIN is looked for in
    [res_partner.unique_id] of every row (the registrant's own included:
    the filter is on [unique_id] alone), and the UIN is assigned and
    committed.  Past the query the UIN is a string the driver binds, the
    query having raised otherwise; the last branch repeats that exception. *)
Definition assign_uin (env : Env) (registrant_id : string) (uin : json) : M unit :=
  (* Update res_partner.unique_id with the MOSIP Generated ID *)
  res_partner ← query_res_partner registrant_id;
  match res_partner with
  | None => raise (NoResPartner registrant_id)
  | Some partner =>
      (* Check if the UIN is already present in res_partner.unique_id *)
      existing_partner_with_uin ← query_partner_with_uin env uin;
      match existing_partner_with_uin, bound_text env uin with
      | Some _, Some u => raise (UinAlreadyPresent u)
      | None, Some u =>
          modify_res_partner partner (set_unique_id (Some u));;
          commit env
      | _, None => raise (LibraryError (bind_error env uin))
      end
  end.

(** Lines 91-99: the queue entry is marked completed and committed. *)
Definition complete_queue_entry (env : Env) (queue_entry : nat) : M unit :=
  (* Update queue entry statuses *)
  load_queue_entry queue_entry;;
  modify_queue_entry queue_entry incr_number_of_attempts_request;;
  modify_queue_entry queue_entry
    (set_id_generation_request_status IDGenerationRequestStatus.COMPLETED);;
  modify_queue_entry queue_entry
    (set_id_generation_update_status IDGenerationUpdateStatus.PENDING);;
  now ← utcnow env;
  modify_queue_entry queue_entry (set_last_attempt_datetime_request (Some now));;
  modify_queue_entry queue_entry (set_last_attempt_error_code_request None);;
  commit env.

(** Lines 105-120: the handler of [except Exception as e].  When the
    exception came from a commit, the session is rolled back and the [+=]
    of line 110 raises out of the handler. *)
Definition record_failure (env : Env) (_config : Settings)
    (registrant_id : string) (queue_entry : nat) (e : Exc) : M unit :=
  let error_message :=
    "Error during ID generation request for registrant_id "
      +:+ registrant_id +:+ ": " +:+ str_exc e in
  logger_error error_message;;
  load_queue_entry queue_entry;;
  modify_queue_entry queue_entry incr_number_of_attempts_request;;
  now ← utcnow env;
  modify_queue_entry queue_entry (set_last_attempt_datetime_request (Some now));;
  modify_queue_entry queue_entry
    (set_last_attempt_error_code_request (Some (str_exc e)));;
  modify_queue_entry queue_entry
    (λ q, if max_id_generation_request_attempts _config
               <=? number_of_attempts_request q
          then set_id_generation_request_status IDGenerationRequestStatus.FAILED q
          else q);;
  commit env.

(** Lines 43-103, the part of the [try] block after the queue entry is found. *)
Definition attempt (env : Env) (_config : Settings) (registrant_id : string)
    (entry : nat) : M unit :=
  uin ← fetch_uin env _config;
  assign_uin env registrant_id uin;;
  complete_queue_entry env entry;;
  logger_info ("ID generation request completed for registrant_id: "
                 +:+ registrant_id).

(** The task.  The queue entry is fetched first, on a session just opened,
    which the model takes to answer; so the handler is only ever entered
    with the entry found and its [if queue_entry:] is the [Some] branch
    here.  The [return] of line 41 leaves the function, past the closing
    log line. *)
Definition id_generation_request_worker (env : Env) (_config : Settings)
    (registrant_id : string) : M unit :=
  logger_info ("Starting ID generation request for registrant_id: "
                 +:+ registrant_id);;
  (* Fetch the queue entry *)
  queue_entry ← query_queue_entry registrant_id;
  match queue_entry with
  | None =>
      logger_error ("No queue entry found for registrant_id: " +:+ registrant_id)
  | Some entry =>
      try_except
        (attempt env _config registrant_id entry)
        (record_failure env _config registrant_id entry);;
      logger_info ("Completed ID generation request for registrant_id: "
                     +:+ registrant_id)
  end.

(** One invocation of the task on a store: a fresh session is opened on it. *)
Definition process (env : Env) (_config : Settings) (registrant_id : string)
    (st : Store) : Result unit :=
  id_generation_request_worker env _config registrant_id (open_session st).

(** The store an invocation leaves behind. *)
Definition store_after (env : Env) (_config : Settings) (registrant_id : string)
    (st : Store) : Store :=
  db (final_session (process env _config registrant_id st)).

(** A sequence of invocations for one registrant, each with the answers its
    collaborators give that time. *)
Fixpoint replay (envs : list Env) (_config : Settings) (registrant_id : string)
    (st : Store) : Store :=
  match envs with
  | [] => st
  | env :: rest =>
      replay rest _config registrant_id (store_after env _config registrant_id st)
  end.

(** ** The circumstances of an invocation *)

(** The token service hands out a token that passes [if not access_token]. *)
Definition usable_token (env : Env) (token : string) : Prop :=
  get_oauth_token env = inr (Some token) ∧ token ≠ "".

(** With that token, MOSIP answers 200 and the body decodes to [mosip_data]. *)
Definition mosip_answers (env : Env) (_config : Settings) (token : string)
    (mosip_data : json) : Prop :=
  ∃ response,
    usable_token env token ∧
    httpx_get env (mosip_get_uin_url _config) (request_headers token)
      = inr response ∧
    status_code response = 200 ∧
    body_json response = inr mosip_data.

(** A usable token is obtained and MOSIP answers 200 with a body whose
    [response.uin] is [uin] (whatever its truth value). *)
Definition mosip_returns (env : Env) (_config : Settings) (uin : json) : Prop :=
  ∃ token items inner,
    mosip_answers env _config token (JObj items) ∧
    dict_lookup "response" items = Some (JObj inner) ∧
    dict_lookup "uin" inner = Some uin.

(** Some registrant holds the identifier [u]; some registrant other than
    row [j] holds it. *)
Definition held_by_some (u : string) (st : Store) : Prop :=
  ∃ k p, res_partner st !! k = Some p ∧ unique_id p = Some u.

Definition held_by_other (u : string) (j : nat) (st : Store) : Prop :=
  ∃ k p, k ≠ j ∧ res_partner st !! k = Some p ∧ unique_id p = Some u.

(** The ways a step of lines 43-86 fails, each with the exception the
    handler receives: the token service raises or gives nothing usable; the
    call raises, is not answered 200, or its body does not decode; the body
    has no [response.uin] or a false one; the registrant is missing; the UIN
    is already in [res_partner.unique_id], or is a value the driver
    refuses to compare with it. *)
Inductive later_step_fails (env : Env) (_config : Settings) (r : string)
    (st : Store) : Exc → Prop :=
| token_service_raises msg :
    get_oauth_token env = inl msg →
    later_step_fails env _config r st (LibraryError msg)
| no_usable_token :
    get_oauth_token env = inr None ∨ get_oauth_token env = inr (Some "") →
    later_step_fails env _config r st NoAccessToken
| call_raises token msg :
    usable_token env token →
    httpx_get env (mosip_get_uin_url _config) (request_headers token) = inl msg →
    later_step_fails env _config r st (LibraryError msg)
| status_not_200 token response :
    usable_token env token →
    httpx_get env (mosip_get_uin_url _config) (request_headers token)
      = inr response →
    status_code response ≠ 200 →
    later_step_fails env _config r st (MosipCallFailed (status_code response))
| body_not_json token response msg :
    usable_token env token →
    httpx_get env (mosip_get_uin_url _config) (request_headers token)
      = inr response →
    status_code response = 200 →
    body_json response = inl msg →
    later_step_fails env _config r st (LibraryError msg)
| uin_field_missing token mosip_data e :
    mosip_answers env _config token mosip_data →
    response_uin mosip_data = inl e →
    later_step_fails env _config r st e
| uin_falsy uin :
    mosip_returns env _config uin →
    truthy uin = false →
    later_step_fails env _config r st UinNotReceived
| registrant_missing uin :
    mosip_returns env _config uin →
    truthy uin = true →
    first_res_partner r st = None →
    later_step_fails env _config r st (NoResPartner r)
| uin_already_present u :
    mosip_returns env _config (JStr u) →
    u ≠ "" →
    is_Some (first_res_partner r st) →
    binds env u = true →
    held_by_some u st →
    later_step_fails env _config r st (UinAlreadyPresent u)
| uin_not_bound uin :
    mosip_returns env _config uin →
    truthy uin = true →
    is_Some (first_res_partner r st) →
    bound_text env uin = None →
    later_step_fails env _config r st (LibraryError (bind_error env uin)).

(** The session with more written to the log. *)
Definition logged (evs : list Event) (s : Session) : Session :=
  {| db := db s; objects := objects s; failed := failed s; commits := commits s; clock := clock s;
     trace := trace s ++ evs |}.

(** Every [session.commit()] of the invocation goes through. *)
Definition commits_succeed (env : Env) : Prop :=
  ∀ k, session_commit env k = None.

Definition terminal (v : IDGenerationRequestStatus.t) : Prop :=
  v = IDGenerationRequestStatus.COMPLETED ∨ v = IDGenerationRequestStatus.FAILED.

(** The row the handler leaves behind for an entry [q], at time [now], for
    the exception [e]: the composition of its four assignments. *)
Definition failed_attempt (_config : Settings) (now : datetime) (e : Exc)
    (q : G2PQueIDGeneration) : G2PQueIDGeneration :=
  {| registrant_id := registrant_id q;
     number_of_attempts_request := number_of_attempts_request q + 1;
     id_generation_request_status :=
       if max_id_generation_request_attempts _config
            <=? number_of_attempts_request q + 1
       then IDGenerationRequestStatus.FAILED
       else id_generation_request_status q;
     id_generation_update_status := id_generation_update_status q;
     last_attempt_datetime_request := Some now;
     last_attempt_error_code_request := Some (str_exc e) |}.

(** The row lines 92-98 leave behind. *)
Definition completed_attempt (now : datetime) (q : G2PQueIDGeneration)
    : G2PQueIDGeneration :=
  {| registrant_id := registrant_id q;
     number_of_attempts_request := number_of_attempts_request q + 1;
     id_generation_request_status := IDGenerationRequestStatus.COMPLETED;
     id_generation_update_status := IDGenerationUpdateStatus.PENDING;
     last_attempt_datetime_request := Some now;
     last_attempt_error_code_request := None |}.

(** Two sessions that differ in what was logged only. *)
Definition same_data (s s' : Session) : Prop :=
  db s' = db s ∧ objects s' = objects s ∧ commits s' = commits s
  ∧ clock s' = clock s ∧ failed s' = failed s.

(** The session after lines 88-89 went through for partner [j] and UIN [u]. *)
Definition uin_assigned (j : nat) (u : string) (s : Session) : Session :=
  let st := {| g2p_que_id_generation := g2p_que_id_generation (objects s);
               res_partner := alter (set_unique_id (Some u)) j
                                (res_partner (objects s)) |} in
  {| db := st; objects := st; failed := None; commits := S (commits s);
     clock := clock s;
     trace := trace s ++ [Commit st] |}.

(** The session when the [try] block is entered. *)
Definition started (registrant_id : string) (st : Store) : Session :=
  {| db := st; objects := st; failed := None; commits := 0; clock := 0;
     trace := [LogInfo ("Starting ID generation request for registrant_id: "
                          +:+ registrant_id)] |}.

(** A property of sessions that a computation keeps, however it ends. *)
Definition preserves {A} (I : Session → Prop) (m : M A) : Prop :=
  ∀ s, I s → I (final_session (m s)).

(** Both the committed queue rows and the session's are row by row related
    to the rows [l0]. *)
Definition queue_related (R : G2PQueIDGeneration → G2PQueIDGeneration → Prop)
    (l0 : list G2PQueIDGeneration) (s : Session) : Prop :=
  Forall2 R l0 (g2p_que_id_generation (db s))
  ∧ Forall2 R l0 (g2p_que_id_generation (objects s)).

(** The store the handler commits for entry [i]; the stores of the two
    commits of a completed attempt for entry [i], partner [j] and UIN [u]. *)
Definition failure_store (_config : Settings) (now : datetime) (e : Exc)
    (i : nat) (st : Store) : Store :=
  {| g2p_que_id_generation :=
       alter (failed_attempt _config now e) i (g2p_que_id_generation st);
     res_partner := res_partner st |}.

Definition assigned_store (j : nat) (u : string) (st : Store) : Store :=
  {| g2p_que_id_generation := g2p_que_id_generation st;
     res_partner := alter (set_unique_id (Some u)) j (res_partner st) |}.

Definition completed_store (now : datetime) (i j : nat) (u : string)
    (st : Store) : Store :=
  {| g2p_que_id_generation :=
       alter (completed_attempt now) i (g2p_que_id_generation st);
     res_partner := alter (set_unique_id (Some u)) j (res_partner st) |}.

(** The stores that went through a commit, in order. *)
Definition committed_stores (evs : list Event) : list Store :=
  omap (λ ev, match ev with Commit st => Some st | _ => None end) evs.

(** Every identifier in the store is one the driver binds, as those it
    once wrote there are. *)
Definition stored_identifiers_bind (env : Env) (st : Store) : Prop :=
  ∀ k p v, res_partner st !! k = Some p → unique_id p = Some v →
    binds env v = true.

(** The [try] block ends in the exception of line 84 for the UIN [u]. *)
Definition duplicate_failure (env : Env) (_config : Settings) (r : string)
    (st : Store) (u : string) : Prop :=
  ∃ i q s', first_queue_entry r st = Some (i, q)
    ∧ attempt env _config r i (started r st) = Raise (UinAlreadyPresent u) s'.

(** ** Sample data *)

(** What the sample driver binds: a string without NUL character. *)
Fixpoint text_without_nul (u : string) : bool :=
  match u with
  | EmptyString => true
  | String c rest =>
      if Ascii.eqb c Ascii.zero then false else text_without_nul rest
  end.

(** The sample driver's complaint about a value it does not bind. *)
Definition sample_bind_error (v : json) : string :=
  match v with
  | JStr _ => "A string literal cannot contain NUL (0x00) characters."
  | _ => "can't adapt type '" +:+ type_name v +:+ "'"
  end.

Definition sample_config (max_attempts : Z) : Settings :=
  {| mosip_get_uin_url := "https://mosip.example/v1/uin";
     max_id_generation_request_attempts := max_attempts |}.

Definition mosip_reply (uin : json) : Response :=
  {| status_code := 200;
     body_json := inr (JObj [("response", JObj [("uin", uin)])]) |}.

(** The token service gives [token]; MOSIP returns [uin]; commits go
    through; the clock reads 1000, 1001, ... *)
Definition sample_env (token : option string) (uin : json) : Env :=
  {| get_oauth_token := inr token;
     httpx_get := λ _ _, inr (mosip_reply uin);
     session_commit := λ _, None;
     datetime_utcnow := λ k, 1000 + Z.of_nat k;
     binds := text_without_nul;
     bind_error := sample_bind_error;
     pending_rollback_error :=
       λ msg, "This Session's transaction has been rolled back: " +:+ msg |}.

Definition sample_entry (status : IDGenerationRequestStatus.t) (attempts : Z)
    : G2PQueIDGeneration :=
  {| registrant_id := "7";
     number_of_attempts_request := attempts;
     id_generation_request_status := status;
     id_generation_update_status := IDGenerationUpdateStatus.OTHER "NOT_APPLICABLE";
     last_attempt_datetime_request := None;
     last_attempt_error_code_request := None |}.

(** One queue entry, for registrant 7; registrants 7 and 8. *)
Definition sample_store (status : IDGenerationRequestStatus.t) (attempts : Z)
    (unique_id_7 unique_id_8 : option string) : Store :=
  {| g2p_que_id_generation := [sample_entry status attempts];
     res_partner := [ {| id := "7"; unique_id := unique_id_7 |};
                      {| id := "8"; unique_id := unique_id_8 |} ] |}.

(** The same collaborators, but every commit raises. *)
Definition sample_env_commits_fail (token : option string) (uin : json) : Env :=
  {| get_oauth_token := inr token;
     httpx_get := λ _ _, inr (mosip_reply uin);
     session_commit := λ _, Some "server closed the connection unexpectedly";
     datetime_utcnow := λ k, 1000 + Z.of_nat k;
     binds := text_without_nul;
     bind_error := sample_bind_error;
     pending_rollback_error :=
       λ msg, "This Session's transaction has been rolled back: " +:+ msg |}.

(** ** Every store an invocation can leave *)

(** The stores one invocation that found entry [i] can leave behind, by
    which of its commits went through: none; the handler's after a step
    failed; the one of line 89 alone; those of lines 89 and 99.  (After a
    commit raised the handler commits nothing.) *)
Inductive process_outcome (env : Env) (_config : Settings) (r : string)
    (i : nat) (st : Store) : Store → Prop :=
| nothing_committed :
    process_outcome env _config r i st st
| failure_committed e :
    process_outcome env _config r i st
      (failure_store _config (datetime_utcnow env 0) e i st)
| uin_committed j p u :
    first_res_partner r st = Some (j, p) → ¬ held_by_some u st → u ≠ "" →
    process_outcome env _config r i st (assigned_store j u st)
| completion_committed j p u :
    first_res_partner r st = Some (j, p) → ¬ held_by_some u st → u ≠ "" →
    process_outcome env _config r i st
      (completed_store (datetime_utcnow env 0) i j u st).

(** No identifier is the [unique_id] of two registrants. *)
Definition unique_ids_distinct (st : Store) : Prop :=
  ∀ k1 k2 p1 p2 u,
    res_partner st !! k1 = Some p1 → res_partner st !! k2 = Some p2 →
    unique_id p1 = Some u → unique_id p2 = Some u → k1 = k2.

(** A sequence of invocations, each for its own registrant and with the
    answers its collaborators give that time. *)
Fixpoint run_all (calls : list (Env * string)) (_config : Settings) (st : Store)
    : Store :=
  match calls with
  | [] => st
  | (env, r) :: rest => run_all rest _config (store_after env _config r st)
  end.

(** The same collaborators, but only the first [n] commits go through. *)
Definition sample_env_commits_fail_after (n : nat) (token : option string)
    (uin : json) : Env :=
  {| get_oauth_token := inr token;
     httpx_get := λ _ _, inr (mosip_reply uin);
     session_commit := λ k, if (k <? n)%nat then None
                            else Some "server closed the connection unexpectedly";
     datetime_utcnow := λ k, 1000 + Z.of_nat k;
     binds := text_without_nul;
     bind_error := sample_bind_error;
     pending_rollback_error :=
       λ msg, "This Session's transaction has been rolled back: " +:+ msg |}.

(** ** What is seen from outside *)

(** The one request the task is written to make: a GET of the configured
    URL with the two headers of line 50, built from a usable token. *)
Definition expected_request (env : Env) (_config : Settings) (ev : Event)
    : Prop :=
  match ev with
  | HttpGet url headers =>
      url = mosip_get_uin_url _config
      ∧ ∃ token, usable_token env token
          ∧ headers = [("Cookie", "Authorization=" +:+ token);
                       ("Accept", "application/json")]
  | _ => True
  end.

Definition is_http_get (ev : Event) : bool :=
  match ev with HttpGet _ _ => true | _ => false end.

Definition is_token_request (ev : Event) : bool :=
  match ev with TokenRequested => true | _ => false end.

(** A [session.commit()], whether it went through or raised. *)
Definition is_commit_call (ev : Event) : bool :=
  match ev with Commit _ | CommitFailed => true | _ => false end.

Definition count_events (p : Event → bool) (evs : list Event) : nat :=
  length (List.filter p evs).

(** A computation that adds at most [n] events of a kind to the trace. *)
Definition emits_at_most {A} (p : Event → bool) (n : nat) (m : M A) : Prop :=
  ∀ s, (count_events p (trace (final_session (m s)))
        ≤ count_events p (trace s) + n)%nat.

(** MOSIP answers 200 with a [response] that has no [uin]. *)
Definition sample_env_without_uin (token : option string) : Env :=
  {| get_oauth_token := inr token;
     httpx_get := λ _ _, inr {| status_code := 200;
                                body_json := inr (JObj [("response", JObj [])]) |};
     session_commit := λ _, None;
     datetime_utcnow := λ k, 1000 + Z.of_nat k;
     binds := text_without_nul;
     bind_error := sample_bind_error;
     pending_rollback_error :=
       λ msg, "This Session's transaction has been rolled back: " +:+ msg |}.

(** * Properties *)

Ltac unfold_m :=
  unfold mbind, M_bind, mret, M_ret, raise, try_except, logger_info,
    logger_error, emit, utcnow, commit, query_queue_entry, query_res_partner,
    load_queue_entry, session_use, modify_queue_entry, modify_res_partner in *.

(** ** The handler and the completion step *)

Lemma failed_attempt_alter _config now e i (l : list G2PQueIDGeneration) :
  alter (λ q, if max_id_generation_request_attempts _config
                   <=? number_of_attempts_request q
              then set_id_generation_request_status
                     IDGenerationRequestStatus.FAILED q
              else q) i
    (alter (set_last_attempt_error_code_request (Some (str_exc e))) i
       (alter (set_last_attempt_datetime_request (Some now)) i
          (alter incr_number_of_attempts_request i l)))
  = alter (failed_attempt _config now e) i l.
Proof.
  rewrite !list_alter_alter_eq. apply list_alter_ext; [|done].
  intros q _. unfold failed_attempt. simpl.
  destruct (_ <=? _); reflexivity.
Qed.

Lemma completed_attempt_alter now i (l : list G2PQueIDGeneration) :
  alter (set_last_attempt_error_code_request None) i
    (alter (set_last_attempt_datetime_request (Some now)) i
       (alter (set_id_generation_update_status IDGenerationUpdateStatus.PENDING) i
          (alter (set_id_generation_request_status
                    IDGenerationRequestStatus.COMPLETED) i
             (alter incr_number_of_attempts_request i l))))
  = alter (completed_attempt now) i l.
Proof.
  rewrite !list_alter_alter_eq. apply list_alter_ext; [|done].
  intros q _. reflexivity.
Qed.

Ltac session_ok Hs := repeat (progress (simpl; rewrite ?Hs)).

Lemma commit_run env s :
  failed s = None →
  commit env s =
  match session_commit env (commits s) with
  | None =>
      Ok tt {| db := objects s; objects := objects s; failed := None;
               commits := S (commits s); clock := clock s;
               trace := trace s ++ [Commit (objects s)] |}
  | Some msg =>
      Raise (LibraryError msg)
            {| db := db s; objects := db s;
               failed := Some (pending_rollback_error env msg);
               commits := S (commits s); clock := clock s;
               trace := trace s ++ [CommitFailed] |}
  end.
Proof. intros Hs. unfold commit, session_use. by rewrite Hs. Qed.

Lemma record_failure_run env _config registrant_id i e s :
  failed s = None →
  record_failure env _config registrant_id i e s =
  let s' := {| db := db s;
               objects :=
                 {| g2p_que_id_generation :=
                      alter (failed_attempt _config
                               (datetime_utcnow env (clock s)) e) i
                        (g2p_que_id_generation (objects s));
                    res_partner := res_partner (objects s) |};
               failed := None; commits := commits s; clock := S (clock s);
               trace := trace s ++
                 [LogError ("Error during ID generation request for registrant_id "
                              +:+ registrant_id +:+ ": " +:+ str_exc e)] |} in
  commit env s'.
Proof.
  intros Hs. unfold record_failure. unfold_m. session_ok Hs.
  rewrite failed_attempt_alter. reflexivity.
Qed.

Lemma complete_queue_entry_rolled_back env i s text :
  failed s = Some text →
  complete_queue_entry env i s = Raise (LibraryError text) s.
Proof.
  intros Hs. unfold complete_queue_entry. unfold_m. by rewrite Hs.
Qed.

(** On a rolled back session the handler logs and is left by the error of
    its first attribute load. *)
Lemma record_failure_rolled_back env _config registrant_id i e s text :
  failed s = Some text →
  record_failure env _config registrant_id i e s =
  Raise (LibraryError text)
    (logged [LogError ("Error during ID generation request for registrant_id "
                         +:+ registrant_id +:+ ": " +:+ str_exc e)] s).
Proof.
  intros Hs. unfold record_failure, logged. unfold_m. simpl.
  rewrite Hs. reflexivity.
Qed.

Lemma complete_queue_entry_run env i s :
  failed s = None →
  complete_queue_entry env i s =
  commit env {| db := db s;
                objects :=
                  {| g2p_que_id_generation :=
                       alter (completed_attempt (datetime_utcnow env (clock s))) i
                         (g2p_que_id_generation (objects s));
                     res_partner := res_partner (objects s) |};
                failed := None; commits := commits s; clock := S (clock s);
                trace := trace s |}.
Proof.
  intros Hs. unfold complete_queue_entry. unfold_m. session_ok Hs.
  rewrite completed_attempt_alter. reflexivity.
Qed.

(** ** The phases of the [try] block *)

Lemma fetch_uin_frame env _config s :
  same_data s (final_session (fetch_uin env _config s)).
Proof.
  unfold fetch_uin, oauth_token, http_get, response_json, eval, same_data.
  unfold_m. simpl.
  repeat case_match; simplify_eq; simpl; done.
Qed.

Lemma fetch_uin_truthy env _config s uin s' :
  fetch_uin env _config s = Ok uin s' → truthy uin = true.
Proof.
  unfold fetch_uin, oauth_token, http_get, response_json, eval.
  unfold_m. simpl.
  repeat case_match; simplify_eq; intros; simplify_eq;
    try done; by apply negb_false_iff.
Qed.

Lemma bound_text_Some env uin u :
  bound_text env uin = Some u ↔ uin = JStr u ∧ binds env u = true.
Proof.
  unfold bound_text. destruct uin; try by (split; [|intros [? _]]).
  destruct (binds env s) eqn:Hb; split.
  - by intros [= ->].
  - by intros [[= ->] _].
  - done.
  - intros [[= ->] ?]. congruence.
Qed.

(** [assign_uin] in closed form. *)
Lemma assign_uin_run env r uin s :
  failed s = None →
  assign_uin env r uin s =
  match first_res_partner r (objects s) with
  | None => Raise (NoResPartner r) s
  | Some (j, _) =>
      match bound_text env uin with
      | Some u =>
          match first_partner_with_uin u (objects s) with
          | Some _ => Raise (UinAlreadyPresent u) s
          | None =>
              commit env
                {| db := db s;
                   objects := assigned_store j u (objects s);
                   failed := None; commits := commits s; clock := clock s;
                   trace := trace s |}
          end
      | None => Raise (LibraryError (bind_error env uin)) s
      end
  end.
Proof.
  intros Hs. unfold assign_uin, query_partner_with_uin.
  unfold mbind, M_bind, query_res_partner, session_use, raise,
    modify_res_partner. rewrite Hs.
  destruct (first_res_partner r (objects s)) as [[j p]|]; simpl; [|done].
  destruct (bound_text env uin) as [u|]; simpl; [|done]. rewrite Hs.
  destruct (first_partner_with_uin u (objects s)) as [[k p']|]; simpl; [done|].
  rewrite !commit_run by done. simpl.
  by destruct (session_commit env (commits s)).
Qed.

Lemma assign_uin_rolled_back env r uin s text :
  failed s = Some text → assign_uin env r uin s = Raise (LibraryError text) s.
Proof.
  intros Hs. unfold assign_uin. unfold_m. by rewrite Hs.
Qed.

Lemma assign_uin_cases env registrant_id uin s :
  failed s = None →
  match assign_uin env registrant_id uin s with
  | Ok _ s' =>
      ∃ j p u, uin = JStr u ∧ binds env u = true
        ∧ first_res_partner registrant_id (objects s) = Some (j, p)
        ∧ first_partner_with_uin u (objects s) = None
        ∧ session_commit env (commits s) = None
        ∧ s' = uin_assigned j u s
  | Raise e s' =>
      s' = s ∨ ∃ msg, session_commit env (commits s) = Some msg
                      ∧ e = LibraryError msg ∧ db s' = db s
                      ∧ failed s' = Some (pending_rollback_error env msg)
  end.
Proof.
  intros Hs. rewrite assign_uin_run by done.
  destruct (first_res_partner registrant_id (objects s)) as [[j p]|] eqn:Hp;
    [|by left].
  destruct (bound_text env uin) as [u|] eqn:Hb; [|by left].
  apply bound_text_Some in Hb as [-> Hb].
  destruct (first_partner_with_uin u (objects s)) as [[k p']|] eqn:Hu;
    [by left|].
  rewrite commit_run by done. simpl.
  destruct (session_commit env (commits s)) as [msg|] eqn:Hc; simpl.
  - right. by exists msg.
  - by exists j, p, u.
Qed.

(** ** The task as a whole *)

Lemma process_not_found env _config registrant_id st :
  first_queue_entry registrant_id st = None →
  process env _config registrant_id st =
  Ok tt {| db := st; objects := st; failed := None; commits := 0; clock := 0;
           trace := [LogInfo ("Starting ID generation request for registrant_id: "
                                +:+ registrant_id);
                     LogError ("No queue entry found for registrant_id: "
                                 +:+ registrant_id)] |}.
Proof.
  intros Hq. unfold process, id_generation_request_worker, open_session.
  unfold_m. simpl. rewrite Hq. reflexivity.
Qed.

Lemma process_found env _config registrant_id st i q :
  first_queue_entry registrant_id st = Some (i, q) →
  process env _config registrant_id st =
  (try_except (attempt env _config registrant_id i)
              (record_failure env _config registrant_id i);;
   logger_info ("Completed ID generation request for registrant_id: "
                  +:+ registrant_id)) (started registrant_id st).
Proof.
  intros Hq. unfold process, id_generation_request_worker, open_session.
  unfold mbind at 1 2. unfold M_bind at 1 2. unfold logger_info at 1.
  unfold emit at 1. unfold query_queue_entry. simpl. rewrite Hq. reflexivity.
Qed.

Lemma first_queue_entry_lookup r st i q :
  first_queue_entry r st = Some (i, q) →
  g2p_que_id_generation st !! i = Some q ∧ registrant_id q = r.
Proof.
  unfold first_queue_entry. intros H. apply list_find_Some in H.
  destruct H as (? & ? & _). done.
Qed.

(** When every commit goes through, the entry that was found ends up as one
    of two rows: the completed one, or the one the handler writes. *)
Lemma process_entry_after env _config r st i q :
  first_queue_entry r st = Some (i, q) →
  commits_succeed env →
  returns_normally (process env _config r st) = true ∧
  (g2p_que_id_generation (store_after env _config r st) !! i
     = Some (completed_attempt (datetime_utcnow env 0) q)
   ∨ ∃ e, g2p_que_id_generation (store_after env _config r st) !! i
            = Some (failed_attempt _config (datetime_utcnow env 0) e q)).
Proof.
  intros Hq Hc. unfold store_after. rewrite (process_found _ _ _ _ _ _ Hq).
  apply first_queue_entry_lookup in Hq as [Hi _].
  unfold try_except, attempt, mbind, M_bind.
  pose proof (fetch_uin_frame env _config (started r st)) as Hf.
  destruct (fetch_uin env _config (started r st)) as [uin s1|e s1];
    destruct Hf as (Hdb & Hob & Hco & Hcl & Hfa); simpl in *.
  - pose proof (assign_uin_cases env r uin s1 Hfa) as Ha.
    destruct (assign_uin env r uin s1) as [[] s2|e s2].
    + destruct Ha as (j & p & u & -> & _ & _ & _ & _ & ->).
      rewrite complete_queue_entry_run, commit_run by done. simpl.
      rewrite Hc. simpl.
      split; [done|]. left. rewrite Hob, Hcl. simpl.
      rewrite list_lookup_alter_eq, Hi. done.
    + destruct Ha as [->|(msg & Hm & _)]; [|by rewrite Hc in Hm].
      rewrite record_failure_run, commit_run by done. simpl.
      rewrite Hc. simpl.
      split; [done|]. right. exists e. rewrite Hob, Hcl. simpl.
      rewrite list_lookup_alter_eq, Hi. done.
  - rewrite record_failure_run, commit_run by done. simpl. rewrite Hc. simpl.
    split; [done|]. right. exists e. rewrite Hob, Hcl. simpl.
    rewrite list_lookup_alter_eq, Hi. done.
Qed.

(** ** What every path of the task keeps *)

Lemma preserves_bind {A B} I (m : M A) (k : A → M B) :
  preserves I m → (∀ a, preserves I (k a)) → preserves I (m ≫= k).
Proof.
  intros Hm Hk s Hs. specialize (Hm s Hs). unfold mbind, M_bind.
  destruct (m s) as [a s'|e s']; simpl in *; [by apply Hk|done].
Qed.

Lemma preserves_try_except {A} I (body : M A) (handler : Exc → M A) :
  preserves I body → (∀ e, preserves I (handler e)) →
  preserves I (try_except body handler).
Proof.
  intros Hb Hh s Hs. specialize (Hb s Hs). unfold try_except.
  destruct (body s) as [a s'|e s']; simpl in *; [done|by apply Hh].
Qed.

Lemma preserves_raise {A} I e : preserves I (@raise A e).
Proof. by intros s Hs. Qed.

Section QueueRelation.
Variable R : G2PQueIDGeneration → G2PQueIDGeneration → Prop.
Hypothesis R_refl : ∀ q, R q q.
Hypothesis R_trans : ∀ q1 q2 q3, R q1 q2 → R q2 q3 → R q1 q3.
Hypothesis R_attempts : ∀ q, R q (incr_number_of_attempts_request q).
Hypothesis R_completed : ∀ q,
  R q (set_id_generation_request_status IDGenerationRequestStatus.COMPLETED q).
Hypothesis R_failed : ∀ q,
  R q (set_id_generation_request_status IDGenerationRequestStatus.FAILED q).
Hypothesis R_update : ∀ v q, R q (set_id_generation_update_status v q).
Hypothesis R_datetime : ∀ v q, R q (set_last_attempt_datetime_request v q).
Hypothesis R_error : ∀ v q, R q (set_last_attempt_error_code_request v q).

Variable l0 : list G2PQueIDGeneration.
Local Abbreviation I := (queue_related R l0).

Lemma preserves_emit ev : preserves I (emit ev).
Proof. by intros s Hs. Qed.

Lemma preserves_utcnow env : preserves I (utcnow env).
Proof. by intros s Hs. Qed.

Lemma preserves_session_use {A} (k : M A) :
  preserves I k → preserves I (session_use k).
Proof.
  intros Hk s Hs. unfold session_use. destruct (failed s); [done|by apply Hk].
Qed.

Lemma preserves_commit env : preserves I (commit env).
Proof.
  apply preserves_session_use. intros s [Hd Ho].
  destruct (session_commit env (commits s)); by split.
Qed.

Lemma preserves_load_queue_entry i : preserves I (load_queue_entry i).
Proof. apply preserves_session_use. by intros s Hs. Qed.

Lemma preserves_modify_res_partner j f : preserves I (modify_res_partner j f).
Proof. by intros s Hs. Qed.

Lemma preserves_modify_queue_entry i f :
  (∀ q, R q (f q)) → preserves I (modify_queue_entry i f).
Proof.
  intros Hf s [Hd Ho]. split; [done|]. simpl.
  apply Forall2_alter_r; [done|]. intros q0 q _ _ Hq. by eapply R_trans.
Qed.

Lemma preserves_fetch_uin env _config : preserves I (fetch_uin env _config).
Proof.
  intros s [Hd Ho].
  destruct (fetch_uin_frame env _config s) as (Hdb & Hob & _).
  unfold queue_related. by rewrite Hdb, Hob.
Qed.

Lemma preserves_assign_uin env r uin : preserves I (assign_uin env r uin).
Proof.
  unfold assign_uin.
  apply preserves_bind; [apply preserves_session_use; by intros s Hs|].
  intros [j|]; [|apply preserves_raise].
  apply preserves_bind.
  { unfold query_partner_with_uin. destruct (bound_text env uin);
      [apply preserves_session_use; by intros ? ?|apply preserves_raise]. }
  intros [k|]; destruct (bound_text env uin); try apply preserves_raise.
  apply preserves_bind; [apply preserves_modify_res_partner|].
  intros _. apply preserves_commit.
Qed.

Lemma preserves_complete_queue_entry env i :
  preserves I (complete_queue_entry env i).
Proof.
  unfold complete_queue_entry.
  repeat (apply preserves_bind;
          [first [apply preserves_modify_queue_entry; auto
                 |apply preserves_load_queue_entry
                 |apply preserves_utcnow]|intros ?]).
  apply preserves_commit.
Qed.

Lemma preserves_record_failure env _config r i e :
  preserves I (record_failure env _config r i e).
Proof.
  unfold record_failure.
  repeat (apply preserves_bind;
          [first [apply preserves_modify_queue_entry; auto
                 |apply preserves_load_queue_entry
                 |apply preserves_utcnow
                 |apply preserves_emit]|intros ?]).
  - intros q. destruct (_ <=? _); auto.
  - apply preserves_commit.
Qed.

Lemma preserves_worker env _config r :
  preserves I (id_generation_request_worker env _config r).
Proof.
  unfold id_generation_request_worker.
  apply preserves_bind; [apply preserves_emit|intros _].
  apply preserves_bind; [apply preserves_session_use; by intros s Hs|].
  intros [i|]; [|apply preserves_emit].
  apply preserves_bind; [|intros _; apply preserves_emit].
  apply preserves_try_except; [|apply preserves_record_failure].
  apply preserves_bind; [apply preserves_fetch_uin|intros uin].
  apply preserves_bind; [apply preserves_assign_uin|intros _].
  apply preserves_bind; [apply preserves_complete_queue_entry|intros _].
  apply preserves_emit.
Qed.
End QueueRelation.

(** Row by row, the queue after an invocation is related to the queue
    before, for every relation the eight assignments respect. *)
Lemma process_queue_related R env _config r st :
  (∀ q, R q q) →
  (∀ q1 q2 q3, R q1 q2 → R q2 q3 → R q1 q3) →
  (∀ q, R q (incr_number_of_attempts_request q)) →
  (∀ q, R q (set_id_generation_request_status
               IDGenerationRequestStatus.COMPLETED q)) →
  (∀ q, R q (set_id_generation_request_status
               IDGenerationRequestStatus.FAILED q)) →
  (∀ v q, R q (set_id_generation_update_status v q)) →
  (∀ v q, R q (set_last_attempt_datetime_request v q)) →
  (∀ v q, R q (set_last_attempt_error_code_request v q)) →
  Forall2 R (g2p_que_id_generation st)
    (g2p_que_id_generation (store_after env _config r st)).
Proof.
  intros Hrefl Htrans H1 H2 H3 H4 H5 H6.
  assert (Hst : Forall2 R (g2p_que_id_generation st) (g2p_que_id_generation st)).
  { apply Forall_Forall2_diag, Forall_forall. auto. }
  apply (preserves_worker R Hrefl Htrans H1 H2 H3 H4 H5 H6
           (g2p_que_id_generation st) env _config r (open_session st)).
  by split.
Qed.

(** ** Reading the circumstances *)

Lemma first_partner_with_uin_None u st :
  first_partner_with_uin u st = None ↔ ¬ held_by_some u st.
Proof.
  unfold first_partner_with_uin, held_by_some.
  rewrite list_find_None, Forall_lookup. split.
  - intros H (k & p & Hk & Hu). by apply (H k p).
  - intros H k p Hk Hu. apply H. by exists k, p.
Qed.

Lemma first_partner_with_uin_Some u st :
  is_Some (first_partner_with_uin u st) ↔ held_by_some u st.
Proof.
  split.
  - intros [[k p] H]. apply list_find_Some in H as (Hk & Hu & _).
    by exists k, p.
  - intros H. destruct (first_partner_with_uin u st) eqn:E; [done|].
    by apply first_partner_with_uin_None in E.
Qed.

Lemma response_uin_inr mosip_data uin :
  response_uin mosip_data = inr uin ↔
  ∃ items inner, mosip_data = JObj items
    ∧ dict_lookup "response" items = Some (JObj inner)
    ∧ dict_lookup "uin" inner = Some uin.
Proof.
  unfold response_uin, py_get, py_getitem. split.
  - destruct mosip_data; try done.
    destruct (dict_lookup "response" items) as [[]|] eqn:Er; simpl; try done.
    destruct (dict_lookup "uin" items0) eqn:E; [|done].
    intros [= ->]. by eexists _, _.
  - intros (items & inner & -> & -> & Hu). simpl. by rewrite Hu.
Qed.

Lemma token_nonempty token : token ≠ "" → String.eqb token "" = false.
Proof. intros H. by apply String.eqb_neq. Qed.

Ltac use_token Htok :=
  let Hg := fresh in let Hne := fresh in
  destruct Htok as [Hg Hne]; rewrite Hg; simpl;
  rewrite (token_nonempty _ Hne); simpl.

Ltac use_answer Hans :=
  let response := fresh "response" in
  let Htok := fresh in let Hget := fresh in
  let Hst := fresh in let Hbody := fresh in
  destruct Hans as (response & Htok & Hget & Hst & Hbody);
  use_token Htok; rewrite Hget; simpl; rewrite Hst; simpl;
  rewrite Hbody; simpl.

Ltac session_eq :=
  unfold logged; simpl; f_equal; rewrite <- ?app_assoc; reflexivity.

Lemma fetch_uin_answered env _config token mosip_data s :
  mosip_answers env _config token mosip_data →
  fetch_uin env _config s =
  match response_uin mosip_data with
  | inl e => Raise e
  | inr uin => if truthy uin then Ok uin else Raise UinNotReceived
  end (logged [TokenRequested; LogInfo "Received access token";
               HttpGet (mosip_get_uin_url _config) (request_headers token);
               LogInfoUinData mosip_data] s).
Proof.
  intros Hans. unfold fetch_uin, oauth_token, http_get, response_json, eval.
  unfold_m. simpl. use_answer Hans.
  destruct (response_uin mosip_data) as [e|uin]; simpl.
  - f_equal. session_eq.
  - destruct (truthy uin); simpl; f_equal; session_eq.
Qed.

Lemma mosip_returns_answers env _config uin :
  mosip_returns env _config uin →
  ∃ token mosip_data, mosip_answers env _config token mosip_data
    ∧ response_uin mosip_data = inr uin.
Proof.
  intros (token & items & inner & Hans & Hr & Hu).
  exists token, (JObj items). split; [done|].
  apply response_uin_inr. by exists items, inner.
Qed.

Lemma fetch_uin_inv env _config s uin s' :
  fetch_uin env _config s = Ok uin s' → mosip_returns env _config uin.
Proof.
  unfold fetch_uin, oauth_token, http_get, response_json, eval.
  unfold_m. simpl.
  destruct (get_oauth_token env) as [msg|[token|]] eqn:Htok; simpl; try done.
  destruct (String.eqb token "") eqn:Hne; simpl; try done.
  destruct (httpx_get env _ _) as [msg|response] eqn:Hget; simpl; try done.
  destruct (status_code response =? 200) eqn:Hst; simpl; try done.
  destruct (body_json response) as [msg|mosip_data] eqn:Hbody; simpl; try done.
  destruct (response_uin mosip_data) as [e|uin'] eqn:Hu; simpl; try done.
  destruct (truthy uin'); simpl; try done.
  intros [= -> _].
  apply response_uin_inr in Hu as (items & inner & -> & Hr & Hu).
  exists token, items, inner. split; [|done].
  exists response. split; [split; [done|by apply String.eqb_neq]|].
  split; [done|]. split; [lia|done].
Qed.

(** ** A failing step *)

Lemma usable_token_unique env token token' :
  usable_token env token → usable_token env token' → token' = token.
Proof. intros [H _] [H' _]. congruence. Qed.

Lemma truthy_JStr u : u ≠ "" → truthy (JStr u) = true.
Proof. intros H. simpl. by rewrite token_nonempty. Qed.

Ltac in_list :=
  repeat first [apply list_elem_of_here | apply list_elem_of_further].

(** A failing step raises its exception out of the [try] block with nothing
    assigned, and after the call to MOSIP whenever a token was there. *)
Lemma attempt_fails env _config r i e s :
  failed s = None →
  later_step_fails env _config r (objects s) e →
  ∃ evs, attempt env _config r i s = Raise e (logged evs s)
    ∧ ∀ token, usable_token env token →
        HttpGet (mosip_get_uin_url _config) (request_headers token) ∈ evs.
Proof.
  intros Hs Hfail. unfold attempt, mbind, M_bind.
  destruct Hfail as [msg Hg | Hg | token msg Htok Hget
    | token response Htok Hget Hst | token response msg Htok Hget Hst Hbody
    | token mosip_data e Hans Hu | uin Hret Hf | uin Hret Ht Hp
    | u Hret Hne Hp Hb Hheld | uin Hret Ht Hp Hb].
  - exists [TokenRequested]. split.
    + unfold fetch_uin, oauth_token. unfold_m. simpl. by rewrite Hg.
    + intros token [Hg' _]. congruence.
  - exists [TokenRequested; LogInfo "Received access token"]. split.
    + unfold fetch_uin, oauth_token. unfold_m. simpl.
      destruct Hg as [-> | ->]; simpl; f_equal; session_eq.
    + intros token [Hg' Hne]. destruct Hg; congruence.
  - eexists. split.
    + unfold fetch_uin, oauth_token, http_get. unfold_m. simpl.
      pose proof Htok as Htok'. use_token Htok'. rewrite Hget. simpl.
      f_equal. session_eq.
    + intros token' H'. rewrite (usable_token_unique _ _ _ Htok H'). in_list.
  - eexists. split.
    + unfold fetch_uin, oauth_token, http_get. unfold_m. simpl.
      pose proof Htok as Htok'. use_token Htok'. rewrite Hget. simpl.
      apply Z.eqb_neq in Hst. rewrite Hst. simpl. f_equal. session_eq.
    + intros token' H'. rewrite (usable_token_unique _ _ _ Htok H'). in_list.
  - eexists. split.
    + unfold fetch_uin, oauth_token, http_get, response_json. unfold_m. simpl.
      pose proof Htok as Htok'. use_token Htok'. rewrite Hget. simpl.
      rewrite Hst. simpl. rewrite Hbody. simpl. f_equal. session_eq.
    + intros token' H'. rewrite (usable_token_unique _ _ _ Htok H'). in_list.
  - eexists. split.
    + rewrite (fetch_uin_answered _ _ _ _ _ Hans), Hu. reflexivity.
    + intros token' H'. destruct Hans as (? & Htok & _).
      rewrite (usable_token_unique _ _ _ Htok H'). in_list.
  - apply mosip_returns_answers in Hret as (token & mosip_data & Hans & Hu).
    eexists. split.
    + rewrite (fetch_uin_answered _ _ _ _ _ Hans), Hu, Hf. reflexivity.
    + intros token' H'. destruct Hans as (? & Htok & _).
      rewrite (usable_token_unique _ _ _ Htok H'). in_list.
  - apply mosip_returns_answers in Hret as (token & mosip_data & Hans & Hu).
    eexists. split.
    + rewrite (fetch_uin_answered _ _ _ _ _ Hans), Hu, Ht. cbv beta iota.
      rewrite assign_uin_run by done. simpl. rewrite Hp. reflexivity.
    + intros token' H'. destruct Hans as (? & Htok & _).
      rewrite (usable_token_unique _ _ _ Htok H'). in_list.
  - apply mosip_returns_answers in Hret as (token & mosip_data & Hans & Hu).
    destruct Hp as [[j p] Hp].
    apply first_partner_with_uin_Some in Hheld as [[k p'] Hk].
    eexists. split.
    + rewrite (fetch_uin_answered _ _ _ _ _ Hans), Hu, (truthy_JStr _ Hne).
      cbv beta iota. rewrite assign_uin_run by done. simpl.
      rewrite Hp, Hb, Hk. reflexivity.
    + intros token' H'. destruct Hans as (? & Htok & _).
      rewrite (usable_token_unique _ _ _ Htok H'). in_list.
  - apply mosip_returns_answers in Hret as (token & mosip_data & Hans & Hu).
    destruct Hp as [[j p] Hp].
    eexists. split.
    + rewrite (fetch_uin_answered _ _ _ _ _ Hans), Hu, Ht. cbv beta iota.
      rewrite assign_uin_run by done. simpl. rewrite Hp, Hb. reflexivity.
    + intros token' H'. destruct Hans as (? & Htok & _).
      rewrite (usable_token_unique _ _ _ Htok H'). in_list.
Qed.

Lemma failure_run env _config r st i q e :
  first_queue_entry r st = Some (i, q) →
  later_step_fails env _config r st e →
  session_commit env 0 = None →
  ∃ evs,
    process env _config r st =
    Ok tt {| db := failure_store _config (datetime_utcnow env 0) e i st;
             objects := failure_store _config (datetime_utcnow env 0) e i st;
             failed := None; commits := 1; clock := 1;
             trace :=
               LogInfo ("Starting ID generation request for registrant_id: "
                          +:+ r)
               :: evs ++
               [LogError ("Error during ID generation request for registrant_id "
                            +:+ r +:+ ": " +:+ str_exc e);
                Commit (failure_store _config (datetime_utcnow env 0) e i st);
                LogInfo ("Completed ID generation request for registrant_id: "
                           +:+ r)] |}
    ∧ ∀ token, usable_token env token →
        HttpGet (mosip_get_uin_url _config) (request_headers token) ∈ evs.
Proof.
  intros Hq Hfail Hc. rewrite (process_found _ _ _ _ _ _ Hq).
  destruct (attempt_fails env _config r i e (started r st) eq_refl Hfail)
    as (evs & Hrun & Hget).
  exists evs. split; [|done].
  unfold try_except, mbind, M_bind. rewrite Hrun.
  rewrite record_failure_run, commit_run by done. simpl. rewrite Hc.
  unfold logger_info, emit, failure_store. simpl.
  f_equal. f_equal. rewrite <- !app_assoc. reflexivity.
Qed.

(** ** A completed attempt *)

Lemma success_run env _config r st i q j p u :
  first_queue_entry r st = Some (i, q) →
  mosip_returns env _config (JStr u) → u ≠ "" →
  binds env u = true →
  first_res_partner r st = Some (j, p) →
  ¬ held_by_some u st →
  session_commit env 0 = None → session_commit env 1 = None →
  ∃ token mosip_data,
    usable_token env token ∧
    process env _config r st =
    Ok tt {| db := completed_store (datetime_utcnow env 0) i j u st;
             objects := completed_store (datetime_utcnow env 0) i j u st;
             failed := None; commits := 2; clock := 1;
             trace :=
               [LogInfo ("Starting ID generation request for registrant_id: "
                           +:+ r);
                TokenRequested; LogInfo "Received access token";
                HttpGet (mosip_get_uin_url _config) (request_headers token);
                LogInfoUinData mosip_data;
                Commit (assigned_store j u st);
                Commit (completed_store (datetime_utcnow env 0) i j u st);
                LogInfo ("ID generation request completed for registrant_id: "
                           +:+ r);
                LogInfo ("Completed ID generation request for registrant_id: "
                           +:+ r)] |}.
Proof.
  intros Hq Hret Hne Hb Hp Hfree Hc0 Hc1.
  rewrite (process_found _ _ _ _ _ _ Hq).
  apply mosip_returns_answers in Hret as (token & mosip_data & Hans & Hu).
  exists token, mosip_data. split; [by destruct Hans as (? & ? & _)|].
  apply first_partner_with_uin_None in Hfree.
  unfold try_except, attempt, mbind, M_bind.
  rewrite (fetch_uin_answered _ _ _ _ _ Hans), Hu, (truthy_JStr _ Hne).
  cbv beta iota. rewrite assign_uin_run by done. simpl.
  rewrite Hp, Hb, Hfree, commit_run by done. simpl. rewrite Hc0.
  rewrite complete_queue_entry_run, commit_run by done. simpl. rewrite Hc1.
  reflexivity.
Qed.

(** [later_step_fails] is exactly how the [try] block is left before its
    first commit: any other exception out of it was raised by a commit. *)
Lemma fetch_uin_raise_inv env _config r st s e s' :
  fetch_uin env _config s = Raise e s' → later_step_fails env _config r st e.
Proof.
  unfold fetch_uin, oauth_token, http_get, response_json, eval.
  unfold_m. simpl.
  destruct (get_oauth_token env) as [msg|[token|]] eqn:Htok; simpl.
  - intros [= <- _]. by apply token_service_raises.
  - destruct (String.eqb token "") eqn:Hne; simpl.
    { intros [= <- _]. apply no_usable_token. right.
      apply String.eqb_eq in Hne. by subst. }
    assert (Hus : usable_token env token)
      by (split; [done|by apply String.eqb_neq]).
    destruct (httpx_get env _ _) as [msg|response] eqn:Hget; simpl.
    { intros [= <- _]. by eapply call_raises. }
    destruct (status_code response =? 200) eqn:Hst; simpl.
    2:{ intros [= <- _].
        eapply status_not_200; first [done | by apply Z.eqb_neq]. }
    apply Z.eqb_eq in Hst.
    destruct (body_json response) as [msg|mosip_data] eqn:Hbody; simpl.
    { intros [= <- _]. by eapply body_not_json. }
    assert (Hans : mosip_answers env _config token mosip_data)
      by (by exists response).
    destruct (response_uin mosip_data) as [e'|uin] eqn:Hu; simpl.
    { intros [= <- _]. by eapply uin_field_missing. }
    destruct (truthy uin) eqn:Ht; simpl; [done|].
    intros [= <- _]. apply uin_falsy with uin; [|done].
    apply response_uin_inr in Hu as (items & inner & -> & Hr & Hu).
    by exists token, items, inner.
  - intros [= <- _]. apply no_usable_token. by left.
Qed.

Lemma attempt_inv env _config r i s :
  failed s = None →
  match attempt env _config r i s with
  | Ok _ s' =>
      ∃ j p u, mosip_returns env _config (JStr u) ∧ u ≠ ""
        ∧ binds env u = true
        ∧ first_res_partner r (objects s) = Some (j, p)
        ∧ ¬ held_by_some u (objects s)
        ∧ session_commit env (commits s) = None
        ∧ session_commit env (S (commits s)) = None
        ∧ db s' = completed_store (datetime_utcnow env (clock s)) i j u
                    (objects s)
  | Raise e s' =>
      (later_step_fails env _config r (objects s) e ∧ same_data s s')
      ∨ (∃ j p u msg, mosip_returns env _config (JStr u) ∧ u ≠ ""
           ∧ binds env u = true
           ∧ first_res_partner r (objects s) = Some (j, p)
           ∧ ¬ held_by_some u (objects s)
           ∧ session_commit env (commits s) = Some msg
           ∧ e = LibraryError msg
           ∧ failed s' = Some (pending_rollback_error env msg)
           ∧ db s' = db s)
      ∨ (∃ j p u msg, mosip_returns env _config (JStr u) ∧ u ≠ ""
           ∧ binds env u = true
           ∧ first_res_partner r (objects s) = Some (j, p)
           ∧ ¬ held_by_some u (objects s)
           ∧ session_commit env (commits s) = None
           ∧ session_commit env (S (commits s)) = Some msg
           ∧ e = LibraryError msg
           ∧ failed s' = Some (pending_rollback_error env msg)
           ∧ db s' = assigned_store j u (objects s))
  end.
Proof.
  unfold attempt, mbind, M_bind. intros Hs.
  pose proof (fetch_uin_frame env _config s) as Hfr.
  destruct (fetch_uin env _config s) as [uin s1|e1 s1] eqn:Hf.
  2:{ left. split; [by eapply fetch_uin_raise_inv|done]. }
  destruct Hfr as (Hdb & Hob & Hco & Hcl & Hfa). simpl in *.
  rewrite Hs in Hfa.
  pose proof (fetch_uin_truthy _ _ _ _ _ Hf) as Ht.
  apply fetch_uin_inv in Hf.
  assert (Hsame : same_data s s1) by (unfold same_data; by rewrite Hs).
  rewrite assign_uin_run by done. rewrite Hob.
  destruct (first_res_partner r (objects s)) as [[j p]|] eqn:Hp.
  2:{ left. split; [by apply registrant_missing with uin|done]. }
  destruct (bound_text env uin) as [u|] eqn:Hb.
  2:{ left. split; [apply uin_not_bound; try done; by rewrite Hp|done]. }
  apply bound_text_Some in Hb as [-> Hb].
  assert (Hne : u ≠ "") by (by intros ->).
  destruct (first_partner_with_uin u (objects s)) as [[k p']|] eqn:Hk.
  { left. split; [|done].
    apply uin_already_present;
      [done | done | by rewrite Hp | done
      | apply first_partner_with_uin_Some; by rewrite Hk]. }
  apply first_partner_with_uin_None in Hk.
  rewrite commit_run by done. simpl. rewrite Hco.
  destruct (session_commit env (commits s)) as [msg|] eqn:Hc.
  { right. left. exists j, p, u, msg. by rewrite Hdb. }
  rewrite complete_queue_entry_run, commit_run by done. simpl.
  rewrite ?Hco, ?Hcl.
  destruct (session_commit env (S (commits s))) as [msg|] eqn:Hc2.
  - right. right. by exists j, p, u, msg.
  - by exists j, p, u.
Qed.

(** A commit that raises inside the handler does leave the task. *)
Example failed_commit_escapes :
  process (sample_env_commits_fail None JNull) (sample_config 3) "7"
    (sample_store IDGenerationRequestStatus.PENDING 0 None None)
  = Raise (LibraryError "server closed the connection unexpectedly")
      {| db := sample_store IDGenerationRequestStatus.PENDING 0 None None;
         objects := sample_store IDGenerationRequestStatus.PENDING 0 None None;
         failed :=
           Some ("This Session's transaction has been rolled back: "
                   +:+ "server closed the connection unexpectedly");
         commits := 1; clock := 1;
         trace :=
           [LogInfo "Starting ID generation request for registrant_id: 7";
            TokenRequested; LogInfo "Received access token";
            LogError ("Error during ID generation request for registrant_id 7: "
                        +:+ "Failed to retrieve access token from token response");
            CommitFailed] |}.
Proof. reflexivity. Qed.

(** ** When a commit raises *)

(** A failing step whose bookkeeping cannot be committed: the exception of
    the handler's commit leaves the task and nothing is written. *)
Lemma failure_escapes env _config r st i q e msg :
  first_queue_entry r st = Some (i, q) →
  later_step_fails env _config r st e →
  session_commit env 0 = Some msg →
  ∃ s, process env _config r st = Raise (LibraryError msg) s ∧ db s = st.
Proof.
  intros Hq Hfail Hc. rewrite (process_found _ _ _ _ _ _ Hq).
  destruct (attempt_fails env _config r i e (started r st) eq_refl Hfail)
    as (evs & Hrun & _).
  unfold try_except, mbind, M_bind. rewrite Hrun.
  rewrite record_failure_run, commit_run by done. simpl. rewrite Hc.
  by eexists.
Qed.

(** The identifier can be assigned, and the commit of line 89 or the one of
    line 99 raises: the session is rolled back, so the handler logs and is
    left by the error of its first attribute load.  What the commit of line
    89 wrote stays; the queue entry is as it was. *)
Lemma assignment_escapes env _config r st i q j p u :
  first_queue_entry r st = Some (i, q) →
  mosip_returns env _config (JStr u) → u ≠ "" →
  binds env u = true →
  first_res_partner r st = Some (j, p) →
  ¬ held_by_some u st →
  (∀ msg, session_commit env 0 = Some msg →
     ∃ s, process env _config r st
          = Raise (LibraryError (pending_rollback_error env msg)) s
       ∧ db s = st)
  ∧ (∀ msg, session_commit env 0 = None → session_commit env 1 = Some msg →
       ∃ s, process env _config r st
            = Raise (LibraryError (pending_rollback_error env msg)) s
         ∧ db s = assigned_store j u st).
Proof.
  intros Hq Hret Hne Hb Hp Hfree.
  rewrite (process_found _ _ _ _ _ _ Hq).
  apply mosip_returns_answers in Hret as (token & mosip_data & Hans & Hu).
  apply first_partner_with_uin_None in Hfree.
  unfold try_except, attempt, mbind, M_bind.
  rewrite (fetch_uin_answered _ _ _ _ _ Hans), Hu, (truthy_JStr _ Hne).
  cbv beta iota. rewrite assign_uin_run by done. simpl.
  rewrite Hp, Hb, Hfree, commit_run by done. simpl.
  split.
  - intros msg Hc0. rewrite Hc0.
    erewrite record_failure_rolled_back by done. by eexists.
  - intros msg Hc0 Hc1. rewrite Hc0.
    rewrite complete_queue_entry_run, commit_run by done. simpl. rewrite Hc1.
    erewrite record_failure_rolled_back by done. by eexists.
Qed.

(** ** Every path of an invocation that finds its queue entry *)

(** The attempt is completed; or a step of lines 43-86 failed and the
    handler recorded it; or a commit raised, and then an exception leaves
    the task: the one of the handler's commit after a failing step, or the
    session's own after the commit of line 89 or of line 99. *)
Lemma process_paths env _config r st i q :
  first_queue_entry r st = Some (i, q) →
  (∃ j p u, mosip_returns env _config (JStr u) ∧ u ≠ "" ∧ binds env u = true
     ∧ first_res_partner r st = Some (j, p) ∧ ¬ held_by_some u st
     ∧ session_commit env 0 = None ∧ session_commit env 1 = None
     ∧ returns_normally (process env _config r st) = true
     ∧ store_after env _config r st
       = completed_store (datetime_utcnow env 0) i j u st)
  ∨ (∃ e, later_step_fails env _config r st e
       ∧ session_commit env 0 = None
       ∧ returns_normally (process env _config r st) = true
       ∧ store_after env _config r st
         = failure_store _config (datetime_utcnow env 0) e i st)
  ∨ (∃ e msg s, later_step_fails env _config r st e
       ∧ session_commit env 0 = Some msg
       ∧ process env _config r st = Raise (LibraryError msg) s
       ∧ db s = st)
  ∨ (∃ j p u msg s, mosip_returns env _config (JStr u) ∧ u ≠ ""
       ∧ binds env u = true
       ∧ first_res_partner r st = Some (j, p) ∧ ¬ held_by_some u st
       ∧ session_commit env 0 = Some msg
       ∧ process env _config r st
         = Raise (LibraryError (pending_rollback_error env msg)) s
       ∧ db s = st)
  ∨ (∃ j p u msg s, mosip_returns env _config (JStr u) ∧ u ≠ ""
       ∧ binds env u = true
       ∧ first_res_partner r st = Some (j, p) ∧ ¬ held_by_some u st
       ∧ session_commit env 0 = None ∧ session_commit env 1 = Some msg
       ∧ process env _config r st
         = Raise (LibraryError (pending_rollback_error env msg)) s
       ∧ db s = assigned_store j u st).
Proof.
  intros Hq.
  pose proof (attempt_inv env _config r i (started r st) eq_refl) as Hinv.
  destruct (attempt env _config r i (started r st)) as [[] s1|e s1] eqn:Ha;
    simpl in Hinv.
  - destruct Hinv as (j & p & u & Hret & Hne & Hb & Hp & Hfree & Hc0 & Hc1 & _).
    left. exists j, p, u. repeat (split; [done|]).
    destruct (success_run _ _ _ _ _ _ _ _ _ Hq Hret Hne Hb Hp Hfree Hc0 Hc1)
      as (token & mosip_data & _ & Hrun).
    unfold store_after. by rewrite Hrun.
  - destruct Hinv as [[Hfail _]
      |[(j & p & u & msg & Hret & Hne & Hb & Hp & Hfree & Hc0 & _)
      |(j & p & u & msg & Hret & Hne & Hb & Hp & Hfree & Hc0 & Hc1 & _)]].
    + destruct (session_commit env 0) as [msg|] eqn:Hc0.
      * right. right. left.
        destruct (failure_escapes _ _ _ _ _ _ _ _ Hq Hfail Hc0) as (s & Hrun & Hs).
        by exists e, msg, s.
      * right. left. exists e.
        destruct (failure_run _ _ _ _ _ _ _ Hq Hfail Hc0) as (evs & Hrun & _).
        unfold store_after. by rewrite Hrun.
    + right. right. right. left.
      destruct (proj1 (assignment_escapes _ _ _ _ _ _ _ _ _ Hq Hret Hne Hb Hp
                         Hfree) msg Hc0) as (s & Hrun & Hs).
      by exists j, p, u, msg, s.
    + right. right. right. right.
      destruct (proj2 (assignment_escapes _ _ _ _ _ _ _ _ _ Hq Hret Hne Hb Hp
                         Hfree) msg Hc0 Hc1) as (s & Hrun & Hs).
      by exists j, p, u, msg, s.
Qed.

(** A commit that raises inside the [try] block rolls the session back:
    the handler logs the commit's error and is left by the session's own at
    line 110, with nothing written. *)
Example rolled_back_session_escapes :
  process (sample_env_commits_fail (Some "token") (JStr "U1")) (sample_config 3)
    "7" (sample_store IDGenerationRequestStatus.PENDING 0 None None)
  = Raise (LibraryError ("This Session's transaction has been rolled back: "
                           +:+ "server closed the connection unexpectedly"))
      {| db := sample_store IDGenerationRequestStatus.PENDING 0 None None;
         objects := sample_store IDGenerationRequestStatus.PENDING 0 None None;
         failed :=
           Some ("This Session's transaction has been rolled back: "
                   +:+ "server closed the connection unexpectedly");
         commits := 1; clock := 0;
         trace :=
           [LogInfo "Starting ID generation request for registrant_id: 7";
            TokenRequested; LogInfo "Received access token";
            HttpGet "https://mosip.example/v1/uin" (request_headers "token");
            LogInfoUinData (JObj [("response", JObj [("uin", JStr "U1")])]);
            CommitFailed;
            LogError ("Error during ID generation request for registrant_id 7: "
                        +:+ "server closed the connection unexpectedly")] |}.
Proof. reflexivity. Qed.

(** An identifier with a NUL character: the query of line 80 raises, and
    the handler records the driver's error as a failed attempt. *)
Example refused_identifier_is_recorded :
  store_after (sample_env (Some "token") (JStr (String Ascii.zero "U1")))
    (sample_config 3) "7"
    (sample_store IDGenerationRequestStatus.PENDING 0 None None)
  = {| g2p_que_id_generation :=
         [ {| registrant_id := "7";
              number_of_attempts_request := 1;
              id_generation_request_status := IDGenerationRequestStatus.PENDING;
              id_generation_update_status :=
                IDGenerationUpdateStatus.OTHER "NOT_APPLICABLE";
              last_attempt_datetime_request := Some 1000;
              last_attempt_error_code_request :=
                Some "A string literal cannot contain NUL (0x00) characters." |} ];
       res_partner := [ {| id := "7"; unique_id := None |};
                        {| id := "8"; unique_id := None |} ] |}.
Proof. reflexivity. Qed.

(** * The claims *)

(** C7. When no queue entry exists for the registrant, the task logs and
    returns: the store is left as it was (so no attempt is counted), and
    the only things it did are its two log lines; no token was requested,
    MOSIP was not called, nothing was committed. *)
Theorem missing_queue_entry_is_noop env _config r st :
  first_queue_entry r st = None →
  returns_normally (process env _config r st) = true
  ∧ store_after env _config r st = st
  ∧ (trace (final_session (process env _config r st)) =
      [LogInfo ("Starting ID generation request for registrant_id: " +:+ r);
       LogError ("No queue entry found for registrant_id: " +:+ r)])
  ∧ (TokenRequested ∉ trace (final_session (process env _config r st)))
  ∧ (∀ url headers,
       HttpGet url headers ∉ trace (final_session (process env _config r st)))
  ∧ committed_stores (trace (final_session (process env _config r st))) = [].
Proof.
  intros Hq. unfold store_after. rewrite (process_not_found _ _ _ _ Hq). simpl.
  repeat split; try done.
  - intros H. apply elem_of_cons in H as [H|H]; [done|].
    apply elem_of_cons in H as [H|H]; [done|]. by apply elem_of_nil in H.
  - intros url headers H. apply elem_of_cons in H as [H|H]; [done|].
    apply elem_of_cons in H as [H|H]; [done|]. by apply elem_of_nil in H.
Qed.

Lemma missing_queue_entry_is_noop_witness :
  first_queue_entry "9"
    (sample_store IDGenerationRequestStatus.PENDING 0 None None) = None
  ∧ store_after (sample_env (Some "token") (JStr "U1")) (sample_config 3) "9"
      (sample_store IDGenerationRequestStatus.PENDING 0 None None)
    = sample_store IDGenerationRequestStatus.PENDING 0 None None.
Proof.
  split; [reflexivity|].
  apply (missing_queue_entry_is_noop
           (sample_env (Some "token") (JStr "U1")) (sample_config 3) "9"
           (sample_store IDGenerationRequestStatus.PENDING 0 None None)).
  reflexivity.
Defined.

(** C6. Whatever goes wrong with the queue entry, the token, MOSIP, the
    registrant or the UIN is caught within the invocation and ends up in
    the store or in the log.  With no queue entry the task logs, writes
    nothing and returns.  When a later step fails and the handler's commit
    goes through, the task returns normally and the store it leaves is the
    one before with the bookkeeping of that failure on the queue entry: one
    more attempt, the time, the text of the exception, FAILED at the
    threshold.  An exception leaves the task only when a [session.commit()]
    raised: it is that commit's exception, or the one the rolled back
    session raises in the handler after it, and the queue table is then as
    it was.  So the task returns normally when every commit goes through;
    and when the first commit of an invocation that found its entry raises,
    the task raises and the store is as it was. *)
Theorem errors_become_bookkeeping env _config r st :
  (first_queue_entry r st = None →
     returns_normally (process env _config r st) = true
     ∧ store_after env _config r st = st
     ∧ (trace (final_session (process env _config r st)) =
         [LogInfo ("Starting ID generation request for registrant_id: " +:+ r);
          LogError ("No queue entry found for registrant_id: " +:+ r)]))
  ∧ (∀ i q e,
       first_queue_entry r st = Some (i, q) →
       later_step_fails env _config r st e →
       session_commit env 0 = None →
       returns_normally (process env _config r st) = true
       ∧ store_after env _config r st
         = failure_store _config (datetime_utcnow env 0) e i st
       ∧ g2p_que_id_generation (store_after env _config r st) !! i
         = Some (failed_attempt _config (datetime_utcnow env 0) e q)
       ∧ LogError ("Error during ID generation request for registrant_id "
                     +:+ r +:+ ": " +:+ str_exc e)
           ∈ trace (final_session (process env _config r st)))
  ∧ (∀ e s,
       process env _config r st = Raise e s →
       ∃ k msg, session_commit env k = Some msg
         ∧ (e = LibraryError msg
            ∨ e = LibraryError (pending_rollback_error env msg))
         ∧ g2p_que_id_generation (db s) = g2p_que_id_generation st)
  ∧ (commits_succeed env →
       returns_normally (process env _config r st) = true)
  ∧ (∀ i q msg,
       first_queue_entry r st = Some (i, q) →
       session_commit env 0 = Some msg →
       returns_normally (process env _config r st) = false
       ∧ store_after env _config r st = st).
Proof.
  assert (Hraise : ∀ e s,
            process env _config r st = Raise e s →
            ∃ k msg, session_commit env k = Some msg
              ∧ (e = LibraryError msg
                 ∨ e = LibraryError (pending_rollback_error env msg))
              ∧ g2p_que_id_generation (db s) = g2p_que_id_generation st).
  { intros e s Hrun.
    destruct (first_queue_entry r st) as [[i q]|] eqn:Hq.
    2:{ by rewrite (process_not_found _ _ _ _ Hq) in Hrun. }
    destruct (process_paths env _config r st i q Hq)
      as [(j & p & u & _ & _ & _ & _ & _ & _ & _ & Hok & _)
         |[(e' & _ & _ & Hok & _)
         |[(e' & msg & s' & _ & Hc & Hrun' & Hs)
         |[(j & p & u & msg & s' & _ & _ & _ & _ & _ & Hc & Hrun' & Hs)
         |(j & p & u & msg & s' & _ & _ & _ & _ & _ & _ & Hc & Hrun' & Hs)]]]];
      try (by rewrite Hrun in Hok);
      rewrite Hrun in Hrun'; injection Hrun' as -> ->.
    - exists 0%nat, msg. rewrite Hs. auto.
    - exists 0%nat, msg. rewrite Hs. auto.
    - exists 1%nat, msg. rewrite Hs. auto. }
  split; [|split; [|split; [exact Hraise|split]]].
  - intros Hq. unfold store_after.
    by rewrite (process_not_found _ _ _ _ Hq).
  - intros i q e Hq Hfail Hc.
    destruct (failure_run _ _ _ _ _ _ _ Hq Hfail Hc) as (evs & Hrun & _).
    apply first_queue_entry_lookup in Hq as [Hi _].
    unfold store_after. rewrite Hrun. simpl.
    split; [done|]. split; [done|].
    split; [by rewrite list_lookup_alter_eq, Hi|].
    apply elem_of_cons. right. apply elem_of_app. right. in_list.
  - intros Hc.
    destruct (process env _config r st) as [[] s|e s] eqn:Hrun; [done|].
    destruct (Hraise e s eq_refl) as (k & msg & Hk & _).
    by rewrite Hc in Hk.
  - intros i q msg Hq Hc. unfold store_after.
    destruct (process_paths env _config r st i q Hq)
      as [(j & p & u & _ & _ & _ & _ & _ & Hc0 & _)
         |[(e' & _ & Hc0 & _)
         |[(e' & msg' & s' & _ & _ & Hrun & Hs)
         |[(j & p & u & msg' & s' & _ & _ & _ & _ & _ & _ & Hrun & Hs)
         |(j & p & u & msg' & s' & _ & _ & _ & _ & _ & Hc0 & _)]]]];
      try congruence; by rewrite Hrun.
Qed.

(** No token and a PENDING entry with two attempts of three: the task
    returns and the store holds the failure. *)
Lemma errors_become_bookkeeping_witness :
  returns_normally
    (process (sample_env None JNull) (sample_config 3) "7"
       (sample_store IDGenerationRequestStatus.PENDING 2 None None)) = true
  ∧ store_after (sample_env None JNull) (sample_config 3) "7"
      (sample_store IDGenerationRequestStatus.PENDING 2 None None)
    = failure_store (sample_config 3) 1000 NoAccessToken 0
        (sample_store IDGenerationRequestStatus.PENDING 2 None None).
Proof.
  assert (Hfail : later_step_fails (sample_env None JNull) (sample_config 3) "7"
                    (sample_store IDGenerationRequestStatus.PENDING 2 None None)
                    NoAccessToken)
    by (apply no_usable_token; left; reflexivity).
  destruct (proj1 (proj2 (errors_become_bookkeeping
                            (sample_env None JNull) (sample_config 3) "7"
                            (sample_store IDGenerationRequestStatus.PENDING 2
                               None None)))
              0%nat (sample_entry IDGenerationRequestStatus.PENDING 2)
              NoAccessToken eq_refl Hfail eq_refl)
    as (H1 & H2 & _).
  split; [exact H1|exact H2].
Defined.

(** C3. When the queue entry exists and a later step fails (no usable
    token, a call to MOSIP that raises, is not answered 200 or has a
    malformed body, a missing registrant, a UIN already present), and the
    handler's commit goes through, the entry has one more attempt, the time
    of the attempt and the text of the failure; its status is FAILED when
    the new count has reached the configured maximum, and is otherwise left
    as it was.  So a PENDING entry becomes FAILED if and only if the new
    count has reached the maximum, and stays PENDING otherwise.  The other
    rows and the registrants are as before. *)
Theorem failure_bookkeeping env _config r st i q e :
  first_queue_entry r st = Some (i, q) →
  later_step_fails env _config r st e →
  session_commit env 0 = None →
  returns_normally (process env _config r st) = true
  ∧ res_partner (store_after env _config r st) = res_partner st
  ∧ (∀ k, k ≠ i → g2p_que_id_generation (store_after env _config r st) !! k
                   = g2p_que_id_generation st !! k)
  ∧ ∃ q', g2p_que_id_generation (store_after env _config r st) !! i = Some q'
      ∧ number_of_attempts_request q' = number_of_attempts_request q + 1
      ∧ last_attempt_datetime_request q' = Some (datetime_utcnow env 0)
      ∧ last_attempt_error_code_request q' = Some (str_exc e)
      ∧ (max_id_generation_request_attempts _config
           ≤ number_of_attempts_request q' →
         id_generation_request_status q' = IDGenerationRequestStatus.FAILED)
      ∧ (number_of_attempts_request q'
           < max_id_generation_request_attempts _config →
         id_generation_request_status q' = id_generation_request_status q)
      ∧ (id_generation_request_status q = IDGenerationRequestStatus.PENDING →
         (id_generation_request_status q' = IDGenerationRequestStatus.FAILED
          ↔ max_id_generation_request_attempts _config
              ≤ number_of_attempts_request q')
         ∧ (id_generation_request_status q' ≠ IDGenerationRequestStatus.FAILED
            → id_generation_request_status q'
              = IDGenerationRequestStatus.PENDING)).
Proof.
  intros Hq Hfail Hc.
  destruct (failure_run _ _ _ _ _ _ _ Hq Hfail Hc) as (evs & Hrun & _).
  apply first_queue_entry_lookup in Hq as [Hi _].
  unfold store_after. rewrite Hrun. simpl.
  split; [done|]. split; [done|]. split.
  { intros k Hk. by rewrite list_lookup_alter_ne. }
  eexists. split; [by rewrite list_lookup_alter_eq, Hi|]. simpl.
  split; [done|]. split; [done|]. split; [done|].
  destruct (Z.leb_spec (max_id_generation_request_attempts _config)
              (number_of_attempts_request q + 1)) as [Hle|Hlt].
  - split; [done|]. split; [lia|]. intros _. split; [done|]. done.
  - split; [lia|]. split; [done|]. intros ->. split; [|done].
    split; [done|lia].
Qed.

Lemma failure_bookkeeping_witness :
  first_queue_entry "7"
    (sample_store IDGenerationRequestStatus.PENDING 2 None None)
    = Some (0%nat, sample_entry IDGenerationRequestStatus.PENDING 2)
  ∧ later_step_fails (sample_env None JNull) (sample_config 3) "7"
      (sample_store IDGenerationRequestStatus.PENDING 2 None None)
      NoAccessToken
  ∧ session_commit (sample_env None JNull) 0 = None
  ∧ ∃ q', g2p_que_id_generation
            (store_after (sample_env None JNull) (sample_config 3) "7"
               (sample_store IDGenerationRequestStatus.PENDING 2 None None))
            !! 0%nat = Some q'
      ∧ number_of_attempts_request q' = 2 + 1
      ∧ id_generation_request_status q' = IDGenerationRequestStatus.FAILED.
Proof.
  assert (H1 : first_queue_entry "7"
                 (sample_store IDGenerationRequestStatus.PENDING 2 None None)
               = Some (0%nat, sample_entry IDGenerationRequestStatus.PENDING 2))
    by reflexivity.
  assert (H2 : later_step_fails (sample_env None JNull) (sample_config 3) "7"
                 (sample_store IDGenerationRequestStatus.PENDING 2 None None)
                 NoAccessToken)
    by (apply no_usable_token; left; reflexivity).
  split; [exact H1|]. split; [exact H2|]. split; [reflexivity|].
  destruct (failure_bookkeeping _ _ _ _ _ _ _ H1 H2 eq_refl)
    as (_ & _ & _ & q' & Hq' & Hn & _ & _ & Hfailed & _).
  exists q'. split; [exact Hq'|]. split; [exact Hn|].
  apply Hfailed. rewrite Hn. simpl. lia.
Defined.

(** C9. When MOSIP answers 200 and [response.uin] is there but false (the
    empty string, [None], 0, an empty list, ...), the attempt fails with
    "UIN not received from MOSIP": the failure is counted on the queue entry
    and no registrant is given the value. *)
Theorem falsy_uin_is_counted_failure env _config r st i q uin :
  first_queue_entry r st = Some (i, q) →
  mosip_returns env _config uin →
  truthy uin = false →
  session_commit env 0 = None →
  returns_normally (process env _config r st) = true
  ∧ res_partner (store_after env _config r st) = res_partner st
  ∧ ∃ q', g2p_que_id_generation (store_after env _config r st) !! i = Some q'
      ∧ number_of_attempts_request q' = number_of_attempts_request q + 1
      ∧ last_attempt_error_code_request q' = Some "UIN not received from MOSIP"
      ∧ id_generation_request_status q' =
          (if max_id_generation_request_attempts _config
                <=? number_of_attempts_request q + 1
           then IDGenerationRequestStatus.FAILED
           else id_generation_request_status q).
Proof.
  intros Hq Hret Hf Hc.
  assert (Hfail : later_step_fails env _config r st UinNotReceived)
    by (by apply uin_falsy with uin).
  destruct (failure_run _ _ _ _ _ _ _ Hq Hfail Hc) as (evs & Hrun & _).
  apply first_queue_entry_lookup in Hq as [Hi _].
  unfold store_after. rewrite Hrun. simpl.
  split; [done|]. split; [done|].
  eexists. split; [by rewrite list_lookup_alter_eq, Hi|]. done.
Qed.

Lemma falsy_uin_is_counted_failure_witness :
  first_queue_entry "7"
    (sample_store IDGenerationRequestStatus.PENDING 0 None None)
    = Some (0%nat, sample_entry IDGenerationRequestStatus.PENDING 0)
  ∧ mosip_returns (sample_env (Some "token") (JStr "")) (sample_config 3)
      (JStr "")
  ∧ truthy (JStr "") = false
  ∧ session_commit (sample_env (Some "token") (JStr "")) 0 = None
  ∧ res_partner
      (store_after (sample_env (Some "token") (JStr "")) (sample_config 3) "7"
         (sample_store IDGenerationRequestStatus.PENDING 0 None None))
    = res_partner (sample_store IDGenerationRequestStatus.PENDING 0 None None).
Proof.
  assert (H1 : first_queue_entry "7"
                 (sample_store IDGenerationRequestStatus.PENDING 0 None None)
               = Some (0%nat, sample_entry IDGenerationRequestStatus.PENDING 0))
    by reflexivity.
  assert (H2 : mosip_returns (sample_env (Some "token") (JStr ""))
                 (sample_config 3) (JStr "")).
  { exists "token", [("response", JObj [("uin", JStr "")])], [("uin", JStr "")].
    split; [|split; reflexivity].
    exists (mosip_reply (JStr "")).
    split; [split; [reflexivity|discriminate]|].
    split; [reflexivity|]. split; reflexivity. }
  split; [exact H1|]. split; [exact H2|]. split; [reflexivity|].
  split; [reflexivity|].
  apply (falsy_uin_is_counted_failure _ _ _ _ _ _ _ H1 H2 eq_refl eq_refl).
Defined.

(** ** Sample circumstances *)

Lemma sample_env_returns token uin max_attempts :
  token ≠ "" →
  mosip_returns (sample_env (Some token) uin) (sample_config max_attempts) uin.
Proof.
  intros Hne.
  exists token, [("response", JObj [("uin", uin)])], [("uin", uin)].
  split; [|split; reflexivity].
  exists (mosip_reply uin). split; [by split|]. by repeat split.
Qed.

Lemma sample_token_nonempty : "token" ≠ "".
Proof. discriminate. Qed.

(** ** The registrant after the first commit *)





Lemma sample_not_held_by_other u status attempts v :
  ¬ held_by_other u 0 (sample_store status attempts v None).
Proof.
  intros (k & p & Hk & Hl & Hu).
  destruct k as [|[|k]]; simpl in Hl; [done| |done].
  injection Hl as <-. discriminate Hu.
Qed.

(** C4, as stated, fails: the registrant holds "U1" itself, MOSIP returns
    "U1", no other registrant holds it, every commit goes through, and yet
    the entry is not completed: the attempt is counted as a failure. *)
Lemma completion_counterexample :
  first_queue_entry "7"
    (sample_store IDGenerationRequestStatus.PENDING 0 (Some "U1") None)
    = Some (0%nat, sample_entry IDGenerationRequestStatus.PENDING 0)
  ∧ mosip_returns (sample_env (Some "token") (JStr "U1")) (sample_config 3)
      (JStr "U1")
  ∧ first_res_partner "7"
      (sample_store IDGenerationRequestStatus.PENDING 0 (Some "U1") None)
    = Some (0%nat, {| id := "7"; unique_id := Some "U1" |})
  ∧ ¬ held_by_other "U1" 0
        (sample_store IDGenerationRequestStatus.PENDING 0 (Some "U1") None)
  ∧ commits_succeed (sample_env (Some "token") (JStr "U1"))
  ∧ g2p_que_id_generation
      (store_after (sample_env (Some "token") (JStr "U1")) (sample_config 3)
         "7" (sample_store IDGenerationRequestStatus.PENDING 0 (Some "U1") None))
    = [ {| registrant_id := "7";
           number_of_attempts_request := 1;
           id_generation_request_status := IDGenerationRequestStatus.PENDING;
           id_generation_update_status :=
             IDGenerationUpdateStatus.OTHER "NOT_APPLICABLE";
           last_attempt_datetime_request := Some 1000;
           last_attempt_error_code_request :=
             Some "MOSIP ID U1 is already present in res_partner.unique_id" |} ].
Proof.
  split; [reflexivity|].
  split; [apply sample_env_returns, sample_token_nonempty|].
  split; [reflexivity|].
  split; [apply sample_not_held_by_other|].
  split; [by intros k|].
  reflexivity.
Qed.

(** C4, amended.  When the queue entry exists, a token is obtained, MOSIP
    returns an identifier, a string the driver binds in the query of line
    80, the registrant exists and no registrant at all (the target
    included) holds the identifier, and both commits go through: the
    identifier is the registrant's [unique_id]; the entry has
    one more attempt, status COMPLETED, update status PENDING, the time of
    the attempt and no error; and there were two commits, the first of the
    registrant alone, with the queue entry still as it was, the second of
    the queue entry. *)
Theorem completed_attempt_bookkeeping env _config r st i q j p u :
  first_queue_entry r st = Some (i, q) →
  mosip_returns env _config (JStr u) → u ≠ "" →
  binds env u = true →
  first_res_partner r st = Some (j, p) →
  ¬ held_by_some u st →
  session_commit env 0 = None → session_commit env 1 = None →
  returns_normally (process env _config r st) = true
  ∧ res_partner (store_after env _config r st) !! j
      = Some {| id := id p; unique_id := Some u |}
  ∧ g2p_que_id_generation (store_after env _config r st) !! i
      = Some {| registrant_id := registrant_id q;
                number_of_attempts_request := number_of_attempts_request q + 1;
                id_generation_request_status :=
                  IDGenerationRequestStatus.COMPLETED;
                id_generation_update_status := IDGenerationUpdateStatus.PENDING;
                last_attempt_datetime_request := Some (datetime_utcnow env 0);
                last_attempt_error_code_request := None |}
  ∧ committed_stores (trace (final_session (process env _config r st)))
      = [ {| g2p_que_id_generation := g2p_que_id_generation st;
             res_partner := alter (set_unique_id (Some u)) j (res_partner st) |};
          store_after env _config r st ].
Proof.
  intros Hq Hret Hne Hb Hp Hfree Hc0 Hc1.
  destruct (success_run _ _ _ _ _ _ _ _ _ Hq Hret Hne Hb Hp Hfree Hc0 Hc1)
    as (token & mosip_data & _ & Hrun).
  apply first_queue_entry_lookup in Hq as [Hi _].
  apply list_find_Some in Hp as (Hj & _).
  unfold store_after. rewrite Hrun. simpl.
  split; [done|]. split; [by rewrite list_lookup_alter_eq, Hj|].
  split; [by rewrite list_lookup_alter_eq, Hi|]. reflexivity.
Qed.

Lemma completed_attempt_bookkeeping_witness :
  first_queue_entry "7"
    (sample_store IDGenerationRequestStatus.PENDING 0 None None)
    = Some (0%nat, sample_entry IDGenerationRequestStatus.PENDING 0)
  ∧ first_res_partner "7"
      (sample_store IDGenerationRequestStatus.PENDING 0 None None)
    = Some (0%nat, {| id := "7"; unique_id := None |})
  ∧ ¬ held_by_some "U1"
        (sample_store IDGenerationRequestStatus.PENDING 0 None None)
  ∧ res_partner
      (store_after (sample_env (Some "token") (JStr "U1")) (sample_config 3)
         "7" (sample_store IDGenerationRequestStatus.PENDING 0 None None))
      !! 0%nat
    = Some {| id := "7"; unique_id := Some "U1" |}.
Proof.
  assert (H1 : first_queue_entry "7"
                 (sample_store IDGenerationRequestStatus.PENDING 0 None None)
               = Some (0%nat, sample_entry IDGenerationRequestStatus.PENDING 0))
    by reflexivity.
  assert (H2 : first_res_partner "7"
                 (sample_store IDGenerationRequestStatus.PENDING 0 None None)
               = Some (0%nat, {| id := "7"; unique_id := None |}))
    by reflexivity.
  assert (H3 : ¬ held_by_some "U1"
                 (sample_store IDGenerationRequestStatus.PENDING 0 None None)).
  { intros (k & p & Hl & Hu).
    destruct k as [|[|k]]; simpl in Hl; [| |done];
      injection Hl as <-; discriminate Hu. }
  split; [exact H1|]. split; [exact H2|]. split; [exact H3|].
  refine (proj1 (proj2 (completed_attempt_bookkeeping
                   (sample_env (Some "token") (JStr "U1")) (sample_config 3) "7"
                   _ 0%nat _ 0%nat {| id := "7"; unique_id := None |} "U1" H1
                   (sample_env_returns "token" (JStr "U1") 3
                      sample_token_nonempty)
                   _ eq_refl H2 H3 eq_refl eq_refl))); discriminate.
Defined.

(** ** Where the duplicate failure comes from *)

Lemma response_uin_not_duplicate mosip_data u :
  response_uin mosip_data ≠ inl (UinAlreadyPresent u).
Proof.
  unfold response_uin, py_get, py_getitem.
  destruct mosip_data; try done.
  destruct (default JNull (dict_lookup "response" items)); try done.
  by destruct (dict_lookup "uin" items0).
Qed.

Lemma duplicate_failure_of_held env _config r st i q u :
  first_queue_entry r st = Some (i, q) →
  mosip_returns env _config (JStr u) → u ≠ "" →
  is_Some (first_res_partner r st) →
  binds env u = true →
  held_by_some u st →
  duplicate_failure env _config r st u.
Proof.
  intros Hq Hret Hne Hp Hb Hheld.
  assert (Hfail : later_step_fails env _config r (objects (started r st))
                    (UinAlreadyPresent u))
    by (by apply uin_already_present).
  destruct (attempt_fails env _config r i _ (started r st) eq_refl Hfail)
    as (evs & Hrun & _).
  by exists i, q, (logged evs (started r st)).
Qed.

(** C5, as stated, fails: the duplicate failure is raised although the UIN
    is held by the target registrant only, and by no registrant different
    from it. *)
Lemma duplicate_counterexample :
  first_res_partner "7"
    (sample_store IDGenerationRequestStatus.PENDING 0 (Some "U1") None)
    = Some (0%nat, {| id := "7"; unique_id := Some "U1" |})
  ∧ ¬ held_by_other "U1" 0
        (sample_store IDGenerationRequestStatus.PENDING 0 (Some "U1") None)
  ∧ duplicate_failure (sample_env (Some "token") (JStr "U1")) (sample_config 3)
      "7" (sample_store IDGenerationRequestStatus.PENDING 0 (Some "U1") None)
      "U1".
Proof.
  split; [reflexivity|]. split; [apply sample_not_held_by_other|].
  eexists 0%nat, _, _. split; reflexivity.
Qed.

(** C5, amended.  The duplicate failure is raised for a UIN if and only if
    the invocation gets as far as the check (the queue entry exists, a
    token is obtained, MOSIP returns that UIN, the registrant exists), the
    query of line 80 runs (the driver binds the UIN) and the UIN is already
    the [unique_id] of some registrant, the target registrant included: a
    UIN held by the target alone is a collision.  Over a store whose
    identifiers the driver binds, as those it once wrote, the query runs
    for every UIN that is held, and the failure is raised if and only if
    the check is reached and some registrant holds the UIN. *)
Theorem duplicate_failure_iff env _config r st u :
  (duplicate_failure env _config r st u ↔
   is_Some (first_queue_entry r st)
   ∧ mosip_returns env _config (JStr u) ∧ u ≠ ""
   ∧ is_Some (first_res_partner r st)
   ∧ held_by_some u st
   ∧ binds env u = true)
  ∧ (stored_identifiers_bind env st →
     (duplicate_failure env _config r st u ↔
      is_Some (first_queue_entry r st)
      ∧ mosip_returns env _config (JStr u) ∧ u ≠ ""
      ∧ is_Some (first_res_partner r st)
      ∧ held_by_some u st)).
Proof.
  assert (Hiff : duplicate_failure env _config r st u ↔
                 is_Some (first_queue_entry r st)
                 ∧ mosip_returns env _config (JStr u) ∧ u ≠ ""
                 ∧ is_Some (first_res_partner r st)
                 ∧ held_by_some u st
                 ∧ binds env u = true).
  { split.
    - intros (i & q & s' & Hq & Hrun). split; [done|].
      pose proof (attempt_inv env _config r i (started r st) eq_refl) as Hinv.
      rewrite Hrun in Hinv.
      destruct Hinv as [[Hfail _]
        |[(j & p & u' & msg & _ & _ & _ & _ & _ & _ & He & _)
        |(j & p & u' & msg & _ & _ & _ & _ & _ & _ & _ & He & _)]];
        [|done|done].
      simpl in Hfail. inversion Hfail as [| | | |
        | token mosip_data e Hans Hu | | | u' Hret Hne Hp Hb Hheld |]; subst.
      + by apply response_uin_not_duplicate in Hu.
      + done.
    - intros ([[i q] Hq] & Hret & Hne & Hp & Hheld & Hb).
      by apply duplicate_failure_of_held with i q. }
  split; [exact Hiff|].
  intros Hst. rewrite Hiff. split.
  - intros (? & ? & ? & ? & ? & _). done.
  - intros (? & ? & ? & ? & Hheld). repeat (split; [done|]).
    destruct Hheld as (k & p & Hk & Hu). by apply (Hst k p).
Qed.

(** C1, as stated, fails: the entry is PENDING, the registrant holds "U1"
    from an earlier run and nobody else does; the invocation calls MOSIP
    again, is given "U1" again, raises the duplicate failure against the
    registrant itself and leaves the entry PENDING with a counted failure. *)
Lemma reconciliation_counterexample :
  first_queue_entry "7"
    (sample_store IDGenerationRequestStatus.PENDING 1 (Some "U1") None)
    = Some (0%nat, sample_entry IDGenerationRequestStatus.PENDING 1)
  ∧ first_res_partner "7"
      (sample_store IDGenerationRequestStatus.PENDING 1 (Some "U1") None)
    = Some (0%nat, {| id := "7"; unique_id := Some "U1" |})
  ∧ ¬ held_by_other "U1" 0
        (sample_store IDGenerationRequestStatus.PENDING 1 (Some "U1") None)
  ∧ HttpGet "https://mosip.example/v1/uin" (request_headers "token")
      ∈ trace (final_session
                 (process (sample_env (Some "token") (JStr "U1"))
                    (sample_config 3) "7"
                    (sample_store IDGenerationRequestStatus.PENDING 1
                       (Some "U1") None)))
  ∧ g2p_que_id_generation
      (store_after (sample_env (Some "token") (JStr "U1")) (sample_config 3)
         "7" (sample_store IDGenerationRequestStatus.PENDING 1 (Some "U1") None))
    = [ {| registrant_id := "7";
           number_of_attempts_request := 2;
           id_generation_request_status := IDGenerationRequestStatus.PENDING;
           id_generation_update_status :=
             IDGenerationUpdateStatus.OTHER "NOT_APPLICABLE";
           last_attempt_datetime_request := Some 1000;
           last_attempt_error_code_request :=
             Some "MOSIP ID U1 is already present in res_partner.unique_id" |} ].
Proof.
  split; [reflexivity|]. split; [reflexivity|].
  split; [apply sample_not_held_by_other|].
  split; [|reflexivity].
  vm_compute. in_list.
Qed.

(** C1, amended.  When the queue entry exists and is PENDING, the
    registrant already holds a [unique_id] that no other registrant holds,
    a token is obtained, MOSIP returns an identifier and the commits go
    through, the existing assignment is not looked at: MOSIP is called
    again.  If it returns an identifier that some registrant holds, be it
    the one the registrant holds itself or one of another registrant, the
    duplicate failure is raised (in the first case against the registrant
    itself): the registrants are unchanged, the attempt is counted with
    that error, and the entry is FAILED at the threshold and PENDING below
    it.  If it returns an identifier the driver refuses in the query of
    line 80, the attempt is counted in the same way with the driver's
    error.  The entry becomes COMPLETED if and only if MOSIP returns an
    identifier that the driver binds and no registrant holds, and that
    identifier then replaces the one held. *)
Theorem held_unique_id_is_not_reconciled env _config r st i q j p old u :
  first_queue_entry r st = Some (i, q) →
  id_generation_request_status q = IDGenerationRequestStatus.PENDING →
  first_res_partner r st = Some (j, p) →
  unique_id p = Some old →
  ¬ held_by_other old j st →
  mosip_returns env _config (JStr u) → u ≠ "" →
  commits_succeed env →
  (∃ token, usable_token env token
     ∧ HttpGet (mosip_get_uin_url _config) (request_headers token)
         ∈ trace (final_session (process env _config r st)))
  ∧ (binds env u = true → u = old ∨ held_by_some u st →
     duplicate_failure env _config r st u
     ∧ res_partner (store_after env _config r st) = res_partner st
     ∧ g2p_que_id_generation (store_after env _config r st) !! i
       = Some {| registrant_id := registrant_id q;
                 number_of_attempts_request := number_of_attempts_request q + 1;
                 id_generation_request_status :=
                   if max_id_generation_request_attempts _config
                        <=? number_of_attempts_request q + 1
                   then IDGenerationRequestStatus.FAILED
                   else IDGenerationRequestStatus.PENDING;
                 id_generation_update_status := id_generation_update_status q;
                 last_attempt_datetime_request := Some (datetime_utcnow env 0);
                 last_attempt_error_code_request :=
                   Some ("MOSIP ID " +:+ u
                           +:+ " is already present in res_partner.unique_id") |})
  ∧ (binds env u = false →
     res_partner (store_after env _config r st) = res_partner st
     ∧ g2p_que_id_generation (store_after env _config r st) !! i
       = Some {| registrant_id := registrant_id q;
                 number_of_attempts_request := number_of_attempts_request q + 1;
                 id_generation_request_status :=
                   if max_id_generation_request_attempts _config
                        <=? number_of_attempts_request q + 1
                   then IDGenerationRequestStatus.FAILED
                   else IDGenerationRequestStatus.PENDING;
                 id_generation_update_status := id_generation_update_status q;
                 last_attempt_datetime_request := Some (datetime_utcnow env 0);
                 last_attempt_error_code_request :=
                   Some (bind_error env (JStr u)) |})
  ∧ (binds env u = true → ¬ held_by_some u st →
     res_partner (store_after env _config r st) !! j
       = Some {| id := id p; unique_id := Some u |}
     ∧ g2p_que_id_generation (store_after env _config r st) !! i
       = Some (completed_attempt (datetime_utcnow env 0) q))
  ∧ (id_generation_request_status
       <$> g2p_que_id_generation (store_after env _config r st) !! i
     = Some IDGenerationRequestStatus.COMPLETED
     ↔ binds env u = true ∧ ¬ held_by_some u st).
Proof.
  intros Hq Hpending Hp Hold _ Hret Hne Hc.
  pose proof Hq as Hi. apply first_queue_entry_lookup in Hi as [Hi _].
  pose proof Hp as Hj. apply list_find_Some in Hj as (Hj & _).
  assert (Hrecorded : ∀ e, later_step_fails env _config r st e →
            (∃ token, usable_token env token
               ∧ HttpGet (mosip_get_uin_url _config) (request_headers token)
                   ∈ trace (final_session (process env _config r st)))
            ∧ res_partner (store_after env _config r st) = res_partner st
            ∧ g2p_que_id_generation (store_after env _config r st) !! i
              = Some {| registrant_id := registrant_id q;
                        number_of_attempts_request :=
                          number_of_attempts_request q + 1;
                        id_generation_request_status :=
                          if max_id_generation_request_attempts _config
                               <=? number_of_attempts_request q + 1
                          then IDGenerationRequestStatus.FAILED
                          else IDGenerationRequestStatus.PENDING;
                        id_generation_update_status :=
                          id_generation_update_status q;
                        last_attempt_datetime_request :=
                          Some (datetime_utcnow env 0);
                        last_attempt_error_code_request := Some (str_exc e) |}).
  { intros e Hfail.
    destruct (failure_run _ _ _ _ _ _ _ Hq Hfail (Hc _)) as (evs & Hrun & Hget).
    unfold store_after. rewrite Hrun. simpl. split; [|split; [done|]].
    - pose proof Hret as Hret'.
      apply mosip_returns_answers in Hret' as (token & ? & (? & Htok & _) & _).
      exists token. split; [done|].
      apply elem_of_cons. right. apply elem_of_app. left. by apply Hget.
    - rewrite list_lookup_alter_eq, Hi. simpl. unfold failed_attempt.
      by rewrite Hpending. }
  assert (Hcompleted : binds env u = true → ¬ held_by_some u st →
            (∃ token, usable_token env token
               ∧ HttpGet (mosip_get_uin_url _config) (request_headers token)
                   ∈ trace (final_session (process env _config r st)))
            ∧ res_partner (store_after env _config r st) !! j
              = Some {| id := id p; unique_id := Some u |}
            ∧ g2p_que_id_generation (store_after env _config r st) !! i
              = Some (completed_attempt (datetime_utcnow env 0) q)).
  { intros Hb Hfree.
    destruct (success_run _ _ _ _ _ _ _ _ _ Hq Hret Hne Hb Hp Hfree
                (Hc _) (Hc _)) as (token & mosip_data & Htok & Hrun).
    unfold store_after. rewrite Hrun. simpl. split; [|split].
    - exists token. split; [done|]. in_list.
    - by rewrite list_lookup_alter_eq, Hj.
    - by rewrite list_lookup_alter_eq, Hi. }
  assert (Hdup : binds env u = true → held_by_some u st →
            later_step_fails env _config r st (UinAlreadyPresent u)).
  { intros Hb Hheld. apply uin_already_present; try done. }
  assert (Hrefused : binds env u = false →
            later_step_fails env _config r st
              (LibraryError (bind_error env (JStr u)))).
  { intros Hb. apply uin_not_bound; [done|by apply truthy_JStr|by rewrite Hp|].
    simpl. by rewrite Hb. }
  assert (Hown : u = old → held_by_some u st) by (intros ->; by exists j, p).
  split; [|split; [|split; [|split]]].
  - destruct (binds env u) eqn:Hb.
    + destruct (first_partner_with_uin u st) as [[k p']|] eqn:Hk.
      * apply (Hrecorded (UinAlreadyPresent u)), Hdup; [done|].
        apply first_partner_with_uin_Some. by rewrite Hk.
      * apply Hcompleted; [done|]. by apply first_partner_with_uin_None.
    + by apply (Hrecorded _ (Hrefused eq_refl)).
  - intros Hb Hheld.
    assert (Hheld' : held_by_some u st) by (destruct Hheld; auto).
    split.
    + by apply duplicate_failure_of_held with i q.
    + by apply (Hrecorded _ (Hdup Hb Hheld')).
  - intros Hb. by apply (Hrecorded _ (Hrefused Hb)).
  - intros Hb Hfree. by apply Hcompleted.
  - split.
    + intros Hst.
      destruct (binds env u) eqn:Hb.
      * split; [done|]. intros Hheld.
        destruct (Hrecorded _ (Hdup eq_refl Hheld)) as (_ & _ & Hrow).
        rewrite Hrow in Hst. simpl in Hst. by destruct (_ <=? _).
      * destruct (Hrecorded _ (Hrefused eq_refl)) as (_ & _ & Hrow).
        rewrite Hrow in Hst. simpl in Hst. by destruct (_ <=? _).
    + intros [Hb Hfree].
      destruct (Hcompleted Hb Hfree) as (_ & _ & Hrow). by rewrite Hrow.
Qed.

Lemma held_unique_id_is_not_reconciled_witness :
  first_queue_entry "7"
    (sample_store IDGenerationRequestStatus.PENDING 1 (Some "U1") None)
    = Some (0%nat, sample_entry IDGenerationRequestStatus.PENDING 1)
  ∧ first_res_partner "7"
      (sample_store IDGenerationRequestStatus.PENDING 1 (Some "U1") None)
    = Some (0%nat, {| id := "7"; unique_id := Some "U1" |})
  ∧ ¬ held_by_other "U1" 0
        (sample_store IDGenerationRequestStatus.PENDING 1 (Some "U1") None)
  ∧ commits_succeed (sample_env (Some "token") (JStr "U1"))
  ∧ ∃ token, usable_token (sample_env (Some "token") (JStr "U1")) token
      ∧ HttpGet (mosip_get_uin_url (sample_config 3)) (request_headers token)
          ∈ trace (final_session
                     (process (sample_env (Some "token") (JStr "U1"))
                        (sample_config 3) "7"
                        (sample_store IDGenerationRequestStatus.PENDING 1
                           (Some "U1") None))).
Proof.
  assert (H1 : first_queue_entry "7"
                 (sample_store IDGenerationRequestStatus.PENDING 1 (Some "U1") None)
               = Some (0%nat, sample_entry IDGenerationRequestStatus.PENDING 1))
    by reflexivity.
  assert (H2 : first_res_partner "7"
                 (sample_store IDGenerationRequestStatus.PENDING 1 (Some "U1") None)
               = Some (0%nat, {| id := "7"; unique_id := Some "U1" |}))
    by reflexivity.
  assert (H3 : commits_succeed (sample_env (Some "token") (JStr "U1")))
    by (intros k; reflexivity).
  split; [exact H1|]. split; [exact H2|].
  split; [apply sample_not_held_by_other|]. split; [exact H3|].
  refine (proj1 (held_unique_id_is_not_reconciled
                   (sample_env (Some "token") (JStr "U1")) (sample_config 3) "7"
                   _ 0%nat _ 0%nat {| id := "7"; unique_id := Some "U1" |}
                   "U1" "U1" H1 eq_refl H2 eq_refl
                   (sample_not_held_by_other "U1" _ 1 (Some "U1"))
                   (sample_env_returns "token" (JStr "U1") 3
                      sample_token_nonempty)
                   _ H3)); discriminate.
Defined.

(** ** Attempts and terminal statuses along invocations *)

Lemma process_attempts_grow env _config r st :
  Forall2 (λ q q', number_of_attempts_request q ≤ number_of_attempts_request q')
    (g2p_que_id_generation st)
    (g2p_que_id_generation (store_after env _config r st)).
Proof.
  apply process_queue_related; simpl; intros; lia.
Qed.

Lemma replay_attempts_grow envs _config r st :
  Forall2 (λ q q', number_of_attempts_request q ≤ number_of_attempts_request q')
    (g2p_que_id_generation st)
    (g2p_que_id_generation (replay envs _config r st)).
Proof.
  revert st. induction envs as [|env envs IH]; intros st; simpl.
  - apply Forall_Forall2_diag, Forall_forall. intros; lia.
  - eapply Forall2_trans; [|apply process_attempts_grow|apply IH].
    simpl. intros; lia.
Qed.

Lemma process_terminal_kept env _config r st :
  Forall2 (λ q q', terminal (id_generation_request_status q) →
                   terminal (id_generation_request_status q'))
    (g2p_que_id_generation st)
    (g2p_que_id_generation (store_after env _config r st)).
Proof.
  apply process_queue_related; simpl; unfold terminal; auto.
Qed.

(** C2, as stated, fails: a COMPLETED entry with one attempt, replayed
    while no token can be had and the maximum is two, ends up FAILED with
    two attempts. *)
Lemma terminal_replay_counterexample :
  first_queue_entry "7"
    (sample_store IDGenerationRequestStatus.COMPLETED 1 (Some "U1") None)
    = Some (0%nat, sample_entry IDGenerationRequestStatus.COMPLETED 1)
  ∧ g2p_que_id_generation
      (store_after (sample_env None JNull) (sample_config 2) "7"
         (sample_store IDGenerationRequestStatus.COMPLETED 1 (Some "U1") None))
    = [ {| registrant_id := "7";
           number_of_attempts_request := 2;
           id_generation_request_status := IDGenerationRequestStatus.FAILED;
           id_generation_update_status :=
             IDGenerationUpdateStatus.OTHER "NOT_APPLICABLE";
           last_attempt_datetime_request := Some 1000;
           last_attempt_error_code_request :=
             Some "Failed to retrieve access token from token response" |} ].
Proof. split; reflexivity. Qed.

(** C2, amended.  The task does not look at the status of the entry it
    finds: an entry that is COMPLETED or FAILED is processed like any
    other.  Its status stays one of COMPLETED and FAILED (not necessarily
    the same one) and never goes back to PENDING; its attempt count never
    decreases, and is one more than before whenever the commits go
    through. *)
Theorem terminal_entry_is_processed_again env _config r st i q :
  first_queue_entry r st = Some (i, q) →
  terminal (id_generation_request_status q) →
  ∃ q', g2p_que_id_generation (store_after env _config r st) !! i = Some q'
    ∧ terminal (id_generation_request_status q')
    ∧ number_of_attempts_request q ≤ number_of_attempts_request q'
    ∧ (commits_succeed env →
       number_of_attempts_request q' = number_of_attempts_request q + 1).
Proof.
  intros Hq Hterm.
  pose proof Hq as Hi. apply first_queue_entry_lookup in Hi as [Hi _].
  destruct (Forall2_lookup_l _ _ _ _ _ (process_terminal_kept env _config r st) Hi)
    as (q' & Hq' & Hkept).
  exists q'. split; [done|]. split; [by apply Hkept|]. split.
  - by apply (Forall2_lookup_lr _ _ _ _ _ _
                (process_attempts_grow env _config r st) Hi Hq').
  - intros Hc.
    destruct (process_entry_after env _config _ _ _ _ Hq Hc) as (_ & [H|[e H]]);
      rewrite Hq' in H; injection H as ->; reflexivity.
Qed.

Lemma terminal_entry_is_processed_again_witness :
  first_queue_entry "7"
    (sample_store IDGenerationRequestStatus.COMPLETED 1 (Some "U1") None)
    = Some (0%nat, sample_entry IDGenerationRequestStatus.COMPLETED 1)
  ∧ terminal (id_generation_request_status
                (sample_entry IDGenerationRequestStatus.COMPLETED 1))
  ∧ ∃ q', g2p_que_id_generation
            (store_after (sample_env None JNull) (sample_config 2) "7"
               (sample_store IDGenerationRequestStatus.COMPLETED 1
                  (Some "U1") None)) !! 0%nat = Some q'
      ∧ terminal (id_generation_request_status q')
      ∧ 1 ≤ number_of_attempts_request q'
      ∧ (commits_succeed (sample_env None JNull) →
         number_of_attempts_request q' = 1 + 1).
Proof.
  assert (H1 : first_queue_entry "7"
                 (sample_store IDGenerationRequestStatus.COMPLETED 1
                    (Some "U1") None)
               = Some (0%nat, sample_entry IDGenerationRequestStatus.COMPLETED 1))
    by reflexivity.
  assert (H2 : terminal (id_generation_request_status
                           (sample_entry IDGenerationRequestStatus.COMPLETED 1)))
    by (left; reflexivity).
  split; [exact H1|]. split; [exact H2|].
  exact (terminal_entry_is_processed_again
           (sample_env None JNull) (sample_config 2) "7" _ _ _ H1 H2).
Defined.

(** C8. Along any sequence of invocations for a registrant, the attempt
    count of a queue entry never decreases; and an invocation that finds
    the entry and whose commits go through leaves it with exactly one more
    attempt, whether the attempt completed or failed. *)
Theorem attempts_never_decrease envs env _config r st i q :
  g2p_que_id_generation st !! i = Some q →
  (∃ q', g2p_que_id_generation (replay envs _config r st) !! i = Some q'
     ∧ number_of_attempts_request q ≤ number_of_attempts_request q')
  ∧ (first_queue_entry r st = Some (i, q) →
     commits_succeed env →
     ∃ q', g2p_que_id_generation (store_after env _config r st) !! i = Some q'
       ∧ number_of_attempts_request q' = number_of_attempts_request q + 1).
Proof.
  intros Hi. split.
  - apply (Forall2_lookup_l _ _ _ _ _ (replay_attempts_grow envs _config r st) Hi).
  - intros Hq Hc.
    destruct (process_entry_after env _config _ _ _ _ Hq Hc) as (_ & [H|[e H]]);
      eexists; (split; [exact H|reflexivity]).
Qed.

Lemma attempts_never_decrease_witness :
  g2p_que_id_generation
    (sample_store IDGenerationRequestStatus.PENDING 0 None None) !! 0%nat
    = Some (sample_entry IDGenerationRequestStatus.PENDING 0)
  ∧ first_queue_entry "7"
      (sample_store IDGenerationRequestStatus.PENDING 0 None None)
    = Some (0%nat, sample_entry IDGenerationRequestStatus.PENDING 0)
  ∧ commits_succeed (sample_env (Some "token") (JStr "U1"))
  ∧ (∃ q', g2p_que_id_generation
             (replay [sample_env None JNull; sample_env (Some "token") (JStr "U1")]
                (sample_config 3) "7"
                (sample_store IDGenerationRequestStatus.PENDING 0 None None))
             !! 0%nat = Some q'
       ∧ 0 ≤ number_of_attempts_request q')
  ∧ ∃ q', g2p_que_id_generation
            (store_after (sample_env (Some "token") (JStr "U1"))
               (sample_config 3) "7"
               (sample_store IDGenerationRequestStatus.PENDING 0 None None))
            !! 0%nat = Some q'
      ∧ number_of_attempts_request q' = 0 + 1.
Proof.
  assert (H1 : g2p_que_id_generation
                 (sample_store IDGenerationRequestStatus.PENDING 0 None None)
                 !! 0%nat
               = Some (sample_entry IDGenerationRequestStatus.PENDING 0))
    by reflexivity.
  assert (H2 : first_queue_entry "7"
                 (sample_store IDGenerationRequestStatus.PENDING 0 None None)
               = Some (0%nat, sample_entry IDGenerationRequestStatus.PENDING 0))
    by reflexivity.
  assert (H3 : commits_succeed (sample_env (Some "token") (JStr "U1")))
    by (intros k; reflexivity).
  split; [exact H1|]. split; [exact H2|]. split; [exact H3|].
  destruct (attempts_never_decrease
              [sample_env None JNull; sample_env (Some "token") (JStr "U1")]
              (sample_env (Some "token") (JStr "U1")) (sample_config 3) "7"
              _ _ _ H1) as [Ha Hb].
  split; [exact Ha|exact (Hb H2 H3)].
Defined.

(** * Beyond the claims: every path of the task *)

Lemma process_outcomes env _config r st i q :
  first_queue_entry r st = Some (i, q) →
  process_outcome env _config r i st (store_after env _config r st).
Proof.
  intros Hq. unfold store_after.
  destruct (process_paths env _config r st i q Hq)
    as [(j & p & u & _ & Hne & _ & Hp & Hfree & _ & _ & _ & Hst)
       |[(e & _ & _ & _ & Hst)
       |[(e & msg & s & _ & _ & Hrun & Hs)
       |[(j & p & u & msg & s & _ & _ & _ & _ & _ & _ & Hrun & Hs)
       |(j & p & u & msg & s & _ & Hne & _ & Hp & Hfree & _ & _ & Hrun & Hs)]]]].
  - unfold store_after in Hst. rewrite Hst. by eapply completion_committed.
  - unfold store_after in Hst. rewrite Hst. constructor.
  - rewrite Hrun. simpl. rewrite Hs. constructor.
  - rewrite Hrun. simpl. rewrite Hs. constructor.
  - rewrite Hrun. simpl. rewrite Hs. by eapply uin_committed.
Qed.

(** What an outcome means for the two tables. *)
Lemma outcome_queue env _config r i st st' :
  process_outcome env _config r i st st' →
  ∃ F, g2p_que_id_generation st' = alter F i (g2p_que_id_generation st)
    ∧ ((∀ q, F q = q)
       ∨ (∃ e, ∀ q, F q = failed_attempt _config (datetime_utcnow env 0) e q)
       ∨ (∀ q, F q = completed_attempt (datetime_utcnow env 0) q)).
Proof.
  intros [|e|j p u ? ? ?|j p u ? ? ?]; simpl.
  - exists (λ q, q). split; [by rewrite list_alter_id|by left].
  - eexists. split; [done|]. right. left. by exists e.
  - exists (λ q, q). split; [by rewrite list_alter_id|by left].
  - eexists. split; [done|]. right. by right.
Qed.

Lemma outcome_res_partner env _config r i st st' :
  process_outcome env _config r i st st' →
  res_partner st' = res_partner st
  ∨ ∃ j p u, first_res_partner r st = Some (j, p) ∧ ¬ held_by_some u st
      ∧ u ≠ ""
      ∧ res_partner st' = alter (set_unique_id (Some u)) j (res_partner st).
Proof.
  intros [|e|j p u ? ? ?|j p u ? ? ?]; simpl.
  - by left.
  - by left.
  - right. by exists j, p, u.
  - right. by exists j, p, u.
Qed.

Lemma store_after_not_found env _config r st :
  first_queue_entry r st = None → store_after env _config r st = st.
Proof.
  intros Hq. unfold store_after. by rewrite (process_not_found _ _ _ _ Hq).
Qed.

(** The status of a queue entry becomes FAILED only with an attempt count
    that has reached the configured maximum: on every path of the task,
    whatever the collaborators answer and whichever commits raise, a row
    that is FAILED afterwards was FAILED before or has at least
    [max_id_generation_request_attempts] attempts. *)
Theorem failed_only_at_threshold env _config r st k q q' :
  g2p_que_id_generation st !! k = Some q →
  g2p_que_id_generation (store_after env _config r st) !! k = Some q' →
  id_generation_request_status q' = IDGenerationRequestStatus.FAILED →
  id_generation_request_status q = IDGenerationRequestStatus.FAILED
  ∨ max_id_generation_request_attempts _config ≤ number_of_attempts_request q'.
Proof.
  intros Hk Hk' Hfailed.
  destruct (first_queue_entry r st) as [[i q0]|] eqn:Hq.
  2:{ rewrite (store_after_not_found _ _ _ _ Hq) in Hk'. left. congruence. }
  destruct (outcome_queue _ _ _ _ _ _ (process_outcomes env _config _ _ _ _ Hq))
    as (F & HF & Hcases).
  rewrite HF in Hk'.
  destruct (decide (i = k)) as [->|Hne].
  2:{ rewrite list_lookup_alter_ne in Hk' by done. left. congruence. }
  rewrite list_lookup_alter_eq, Hk in Hk'. simpl in Hk'. injection Hk' as <-.
  destruct Hcases as [H|[[e H]|H]]; rewrite H in *; simpl in *.
  - by left.
  - destruct (Z.leb_spec (max_id_generation_request_attempts _config)
                (number_of_attempts_request q + 1)); [by right|by left].
  - done.
Qed.

Lemma failed_only_at_threshold_witness :
  g2p_que_id_generation
    (sample_store IDGenerationRequestStatus.PENDING 2 None None) !! 0%nat
    = Some (sample_entry IDGenerationRequestStatus.PENDING 2)
  ∧ (∃ q', g2p_que_id_generation
             (store_after (sample_env None JNull) (sample_config 3) "7"
                (sample_store IDGenerationRequestStatus.PENDING 2 None None))
             !! 0%nat = Some q'
       ∧ id_generation_request_status q' = IDGenerationRequestStatus.FAILED
       ∧ (id_generation_request_status
            (sample_entry IDGenerationRequestStatus.PENDING 2)
          = IDGenerationRequestStatus.FAILED
          ∨ max_id_generation_request_attempts (sample_config 3)
              ≤ number_of_attempts_request q')).
Proof.
  split; [reflexivity|]. eexists. split; [reflexivity|]. split; [reflexivity|].
  exact (failed_only_at_threshold (sample_env None JNull) (sample_config 3) "7"
           (sample_store IDGenerationRequestStatus.PENDING 2 None None)
           0%nat _ _ eq_refl eq_refl eq_refl).
Defined.

(** The task touches one queue row and one registrant at most: the first
    queue row of the registrant and the first [res_partner] row with its
    id.  Every other row of both tables is left exactly as it was, no row
    is added or removed, and no [registrant_id] and no [id] changes, on
    every path of the task. *)
Theorem only_the_registrant_is_touched env _config r st :
  (∀ k, fst <$> first_queue_entry r st ≠ Some k →
        g2p_que_id_generation (store_after env _config r st) !! k
        = g2p_que_id_generation st !! k)
  ∧ (∀ k, fst <$> first_res_partner r st ≠ Some k →
          res_partner (store_after env _config r st) !! k
          = res_partner st !! k)
  ∧ Forall2 (λ q q', registrant_id q' = registrant_id q)
      (g2p_que_id_generation st)
      (g2p_que_id_generation (store_after env _config r st))
  ∧ Forall2 (λ p p', id p' = id p)
      (res_partner st) (res_partner (store_after env _config r st)).
Proof.
  destruct (first_queue_entry r st) as [[i q0]|] eqn:Hq.
  2:{ rewrite (store_after_not_found _ _ _ _ Hq).
      repeat split; try done; apply Forall_Forall2_diag, Forall_forall; done. }
  pose proof (process_outcomes env _config _ _ _ _ Hq) as Hout.
  destruct (outcome_queue _ _ _ _ _ _ Hout) as (F & HF & Hcases).
  pose proof (outcome_res_partner _ _ _ _ _ _ Hout) as Hpart.
  split; [|split; [|split]].
  - intros k Hk. rewrite HF. apply list_lookup_alter_ne. simpl in Hk. congruence.
  - intros k Hk. destruct Hpart as [->|(j & p & u & Hp & _ & _ & ->)]; [done|].
    apply list_lookup_alter_ne. rewrite Hp in Hk. simpl in Hk. congruence.
  - rewrite HF. apply Forall2_alter_r.
    { apply Forall_Forall2_diag, Forall_forall. done. }
    intros q q' _ _ <-.
    destruct Hcases as [H|[[e H]|H]]; by rewrite H.
  - destruct Hpart as [->|(j & p & u & Hp & _ & _ & ->)].
    { apply Forall_Forall2_diag, Forall_forall. done. }
    apply Forall2_alter_r.
    { apply Forall_Forall2_diag, Forall_forall. done. }
    by intros p1 p2 _ _ <-.
Qed.

(** ** Uniqueness of the identifiers *)

Lemma alter_unique_id_distinct st j u :
  unique_ids_distinct st → ¬ held_by_some u st →
  unique_ids_distinct (assigned_store j u st).
Proof.
  intros Hd Hfree k1 k2 p1 p2 u'. simpl.
  rewrite !list_lookup_alter.
  destruct (decide (j = k1)) as [E1|H1], (decide (j = k2)) as [E2|H2].
  - congruence.
  - subst k1. intros Hk1 Hk2 Hu1 Hu2.
    destruct (res_partner st !! j) as [p|]; [|done].
    injection Hk1 as <-. simpl in Hu1. injection Hu1 as <-.
    destruct Hfree. by exists k2, p2.
  - subst k2. intros Hk1 Hk2 Hu1 Hu2.
    destruct (res_partner st !! j) as [p|]; [|done].
    injection Hk2 as <-. simpl in Hu2. injection Hu2 as <-.
    destruct Hfree. by exists k1, p1.
  - apply Hd.
Qed.

Lemma process_unique_ids_distinct env _config r st :
  unique_ids_distinct st → unique_ids_distinct (store_after env _config r st).
Proof.
  intros Hd.
  destruct (first_queue_entry r st) as [[i q0]|] eqn:Hq.
  2:{ by rewrite (store_after_not_found _ _ _ _ Hq). }
  pose proof (process_outcomes env _config _ _ _ _ Hq) as Hout.
  destruct (outcome_res_partner _ _ _ _ _ _ Hout)
    as [Heq|(j & p & u & Hp & Hfree & _ & Heq)];
    unfold unique_ids_distinct; rewrite Heq; [done|].
  by apply (alter_unique_id_distinct st j u).
Qed.

(** Starting from registrants whose identifiers are all different, any
    sequence of invocations, for any registrants and whatever happens in
    them, leaves registrants whose identifiers are all different: the
    check of lines 79-86 keeps [unique_id] unique. *)
Theorem unique_ids_stay_distinct calls _config st :
  unique_ids_distinct st → unique_ids_distinct (run_all calls _config st).
Proof.
  revert st. induction calls as [|[env r] calls IH]; intros st Hd; simpl.
  - done.
  - by apply IH, process_unique_ids_distinct.
Qed.

Lemma sample_unique_ids_distinct status attempts v :
  unique_ids_distinct (sample_store status attempts v None).
Proof.
  intros k1 k2 p1 p2 u Hk1 Hk2 Hu1 Hu2.
  destruct k1 as [|[|k1]], k2 as [|[|k2]]; simpl in *; try done;
    simplify_eq; done.
Qed.

Lemma unique_ids_stay_distinct_witness :
  unique_ids_distinct
    (sample_store IDGenerationRequestStatus.PENDING 0 (Some "U1") None)
  ∧ unique_ids_distinct
      (run_all [(sample_env (Some "token") (JStr "U1"), "8");
                (sample_env (Some "token") (JStr "U2"), "7")]
         (sample_config 3)
         (sample_store IDGenerationRequestStatus.PENDING 0 (Some "U1") None)).
Proof.
  split; [apply sample_unique_ids_distinct|].
  apply unique_ids_stay_distinct, sample_unique_ids_distinct.
Defined.

(** ** Completion and the registrant *)

(** An entry that the task turns COMPLETED, or whose update status it turns
    PENDING, belongs to a registrant that by then holds a non-empty
    identifier in the store: the queue entry is only ever marked after the
    commit of line 89, whichever of the later commits raise. *)
Theorem completed_entry_has_identifier env _config r st i q q' :
  first_queue_entry r st = Some (i, q) →
  g2p_que_id_generation (store_after env _config r st) !! i = Some q' →
  (id_generation_request_status q' = IDGenerationRequestStatus.COMPLETED
   ∧ id_generation_request_status q ≠ IDGenerationRequestStatus.COMPLETED)
  ∨ (id_generation_update_status q' = IDGenerationUpdateStatus.PENDING
     ∧ id_generation_update_status q ≠ IDGenerationUpdateStatus.PENDING) →
  ∃ j p u, first_res_partner r st = Some (j, p) ∧ u ≠ ""
    ∧ res_partner (store_after env _config r st) !! j
      = Some {| id := id p; unique_id := Some u |}.
Proof.
  intros Hq Hq' Hmarked.
  pose proof Hq as Hi. apply first_queue_entry_lookup in Hi as [Hi _].
  assert (Hsame : ∀ e now,
            ¬ ((id_generation_request_status (failed_attempt _config now e q)
                = IDGenerationRequestStatus.COMPLETED
                ∧ id_generation_request_status q
                  ≠ IDGenerationRequestStatus.COMPLETED)
               ∨ (id_generation_update_status (failed_attempt _config now e q)
                  = IDGenerationUpdateStatus.PENDING
                  ∧ id_generation_update_status q
                    ≠ IDGenerationUpdateStatus.PENDING))).
  { intros e now [[H1 H2]|[H1 H2]]; simpl in *; [|done].
    by destruct (_ <=? _). }
  assert (Hassigned : ∀ j p u (l : list G2PQueIDGeneration),
            first_res_partner r st = Some (j, p) → u ≠ "" →
            ∃ j0 p0 u0, first_res_partner r st = Some (j0, p0) ∧ u0 ≠ ""
              ∧ alter (set_unique_id (Some u)) j (res_partner st) !! j0
                = Some {| id := id p0; unique_id := Some u0 |}).
  { intros j p u _ Hp Hne. exists j, p, u. split; [done|]. split; [done|].
    apply list_find_Some in Hp as (Hj & _).
    by rewrite list_lookup_alter_eq, Hj. }
  destruct (process_outcomes env _config _ _ _ _ Hq)
    as [|e|j p u Hp _ Hne|j p u Hp _ Hne]; simpl in *.
  - rewrite Hi in Hq'. injection Hq' as <-. by destruct Hmarked as [[]|[]].
  - rewrite list_lookup_alter_eq, Hi in Hq'. injection Hq' as <-.
    by destruct (Hsame e (datetime_utcnow env 0)).
  - by apply (Hassigned j p u []).
  - by apply (Hassigned j p u []).
Qed.

Lemma completed_entry_has_identifier_witness :
  first_queue_entry "7"
    (sample_store IDGenerationRequestStatus.PENDING 0 None None)
    = Some (0%nat, sample_entry IDGenerationRequestStatus.PENDING 0)
  ∧ ∃ j p u,
      first_res_partner "7"
        (sample_store IDGenerationRequestStatus.PENDING 0 None None)
      = Some (j, p) ∧ u ≠ ""
      ∧ res_partner
          (store_after (sample_env (Some "token") (JStr "U1")) (sample_config 3)
             "7" (sample_store IDGenerationRequestStatus.PENDING 0 None None))
          !! j
        = Some {| id := id p; unique_id := Some u |}.
Proof.
  split; [reflexivity|].
  refine (completed_entry_has_identifier
            (sample_env (Some "token") (JStr "U1")) (sample_config 3) "7"
            (sample_store IDGenerationRequestStatus.PENDING 0 None None)
            0%nat (sample_entry IDGenerationRequestStatus.PENDING 0)
            (completed_attempt 1000
               (sample_entry IDGenerationRequestStatus.PENDING 0))
            eq_refl eq_refl _).
  left. split; [reflexivity|discriminate].
Defined.

(** The window between the two commits.  When the commit of line 89 goes
    through and the commit of line 99 raises, the session is rolled back
    and the handler cannot record anything: it logs the error and is left
    by the session's exception at its first use of the queue entry.  The
    exception leaves the task, the registrant holds the new identifier,
    and the queue is exactly as it was: same status, same attempt count, no
    error recorded. *)
Theorem registrant_committed_queue_entry_not env _config r st i q j p u msg :
  first_queue_entry r st = Some (i, q) →
  mosip_returns env _config (JStr u) → u ≠ "" →
  binds env u = true →
  first_res_partner r st = Some (j, p) →
  ¬ held_by_some u st →
  session_commit env 0 = None →
  session_commit env 1 = Some msg →
  (∃ s, process env _config r st
        = Raise (LibraryError (pending_rollback_error env msg)) s)
  ∧ g2p_que_id_generation (store_after env _config r st)
    = g2p_que_id_generation st
  ∧ res_partner (store_after env _config r st) !! j
    = Some {| id := id p; unique_id := Some u |}.
Proof.
  intros Hq Hret Hne Hb Hp Hfree Hc0 Hc1.
  destruct (proj2 (assignment_escapes _ _ _ _ _ _ _ _ _ Hq Hret Hne Hb Hp
                     Hfree) msg Hc0 Hc1) as (s & Hrun & Hdb).
  apply list_find_Some in Hp as (Hj & _).
  unfold store_after. rewrite Hrun. simpl. rewrite Hdb. simpl.
  split; [by exists s|]. split; [done|].
  by rewrite list_lookup_alter_eq, Hj.
Qed.

Lemma registrant_committed_queue_entry_not_witness :
  first_queue_entry "7"
    (sample_store IDGenerationRequestStatus.PENDING 0 None None)
    = Some (0%nat, sample_entry IDGenerationRequestStatus.PENDING 0)
  ∧ first_res_partner "7"
      (sample_store IDGenerationRequestStatus.PENDING 0 None None)
    = Some (0%nat, {| id := "7"; unique_id := None |})
  ∧ g2p_que_id_generation
      (store_after (sample_env_commits_fail_after 1 (Some "token") (JStr "U1"))
         (sample_config 3) "7"
         (sample_store IDGenerationRequestStatus.PENDING 0 None None))
    = g2p_que_id_generation
        (sample_store IDGenerationRequestStatus.PENDING 0 None None)
  ∧ res_partner
      (store_after (sample_env_commits_fail_after 1 (Some "token") (JStr "U1"))
         (sample_config 3) "7"
         (sample_store IDGenerationRequestStatus.PENDING 0 None None)) !! 0%nat
    = Some {| id := "7"; unique_id := Some "U1" |}.
Proof.
  assert (H1 : first_queue_entry "7"
                 (sample_store IDGenerationRequestStatus.PENDING 0 None None)
               = Some (0%nat, sample_entry IDGenerationRequestStatus.PENDING 0))
    by reflexivity.
  assert (H2 : first_res_partner "7"
                 (sample_store IDGenerationRequestStatus.PENDING 0 None None)
               = Some (0%nat, {| id := "7"; unique_id := None |}))
    by reflexivity.
  assert (H3 : mosip_returns
                 (sample_env_commits_fail_after 1 (Some "token") (JStr "U1"))
                 (sample_config 3) (JStr "U1")).
  { exists "token", [("response", JObj [("uin", JStr "U1")])],
      [("uin", JStr "U1")].
    split; [|split; reflexivity].
    exists (mosip_reply (JStr "U1")).
    split; [split; [reflexivity|discriminate]|].
    split; [reflexivity|]. split; reflexivity. }
  assert (H4 : ¬ held_by_some "U1"
                 (sample_store IDGenerationRequestStatus.PENDING 0 None None)).
  { intros (k & p & Hl & Hu).
    destruct k as [|[|k]]; simpl in Hl; [| |done];
      injection Hl as <-; discriminate Hu. }
  assert (H5 : "U1" ≠ "") by discriminate.
  split; [exact H1|]. split; [exact H2|].
  exact (proj2 (registrant_committed_queue_entry_not
                  (sample_env_commits_fail_after 1 (Some "token") (JStr "U1"))
                  (sample_config 3) "7" _ _ _ _ _ "U1" _ H1 H3
                  H5 eq_refl H2 H4 eq_refl eq_refl)).
Defined.

(** * Beyond the claims: what is seen from outside *)

(** ** Properties of the trace that every step keeps *)

Section TraceInvariant.
Variable env : Env.
Variable _config : Settings.
Variable P : list Event → Prop.
Variable ok : Event → Prop.
Hypothesis P_step : ∀ l ev, P l → ok ev → P (l ++ [ev]).
Hypothesis ok_info : ∀ msg, ok (LogInfo msg).
Hypothesis ok_uin_data : ∀ mosip_data, ok (LogInfoUinData mosip_data).
Hypothesis ok_error : ∀ msg, ok (LogError msg).
Hypothesis ok_token : ok TokenRequested.
Hypothesis ok_commit : ∀ st, ok (Commit st).
Hypothesis ok_commit_failed : ok CommitFailed.
Hypothesis ok_request : ∀ token,
  usable_token env token →
  ok (HttpGet (mosip_get_uin_url _config) (request_headers token)).

Local Abbreviation T := (λ s : Session, P (trace s)).

Lemma trace_emit ev : ok ev → preserves T (emit ev).
Proof. intros Hok s Hs. simpl. by apply P_step. Qed.

Lemma trace_commit : preserves T (commit env).
Proof.
  intros s Hs. unfold commit, session_use. destruct (failed s); [done|].
  destruct (session_commit env (commits s)); simpl; by apply P_step.
Qed.

Lemma trace_fetch_uin : preserves T (fetch_uin env _config).
Proof.
  intros s Hs. unfold fetch_uin, oauth_token, http_get, response_json, eval.
  unfold_m. simpl.
  destruct (get_oauth_token env) as [msg|[token|]] eqn:Htok; simpl;
    [by apply P_step| |by repeat apply P_step].
  destruct (String.eqb token "") eqn:Hne; simpl; [by repeat apply P_step|].
  assert (Hus : usable_token env token)
    by (split; [done|by apply String.eqb_neq]).
  destruct (httpx_get env _ _) as [msg|response]; simpl;
    [repeat apply P_step; auto|].
  destruct (status_code response =? 200); simpl;
    [|repeat apply P_step; auto].
  destruct (body_json response) as [msg|mosip_data]; simpl;
    [repeat apply P_step; auto|].
  destruct (response_uin mosip_data) as [e|uin]; simpl;
    [repeat apply P_step; auto|].
  destruct (truthy uin); simpl; repeat apply P_step; auto.
Qed.

Lemma trace_assign_uin r uin : preserves T (assign_uin env r uin).
Proof.
  intros s Hs. destruct (failed s) as [text|] eqn:Hfa.
  { by rewrite (assign_uin_rolled_back _ _ _ _ _ Hfa). }
  rewrite assign_uin_run by done.
  destruct (first_res_partner r (objects s)) as [[j p]|]; [|done].
  destruct (bound_text env uin) as [u|]; [|done].
  destruct (first_partner_with_uin u (objects s)); [done|].
  by apply trace_commit.
Qed.

Lemma trace_complete_queue_entry i : preserves T (complete_queue_entry env i).
Proof.
  intros s Hs. destruct (failed s) as [text|] eqn:Hfa.
  { by rewrite (complete_queue_entry_rolled_back _ _ _ _ Hfa). }
  rewrite complete_queue_entry_run by done. by apply trace_commit.
Qed.

Lemma trace_record_failure r i e : preserves T (record_failure env _config r i e).
Proof.
  intros s Hs. destruct (failed s) as [text|] eqn:Hfa.
  { rewrite (record_failure_rolled_back _ _ _ _ _ _ _ Hfa). simpl.
    by apply P_step. }
  rewrite record_failure_run by done. apply trace_commit. simpl.
  by apply P_step.
Qed.

Lemma trace_attempt r i : preserves T (attempt env _config r i).
Proof.
  unfold attempt.
  apply preserves_bind; [apply trace_fetch_uin|intros uin].
  apply preserves_bind; [apply trace_assign_uin|intros _].
  apply preserves_bind; [apply trace_complete_queue_entry|intros _].
  by apply trace_emit.
Qed.

Lemma trace_worker r : preserves T (id_generation_request_worker env _config r).
Proof.
  unfold id_generation_request_worker.
  apply preserves_bind; [by apply trace_emit|intros _].
  apply preserves_bind;
    [intros s Hs; unfold query_queue_entry, session_use; by destruct (failed s)|].
  intros [i|]; [|by apply trace_emit].
  apply preserves_bind; [|intros _; by apply trace_emit].
  apply preserves_try_except; [apply trace_attempt|].
  intros e. apply trace_record_failure.
Qed.
End TraceInvariant.

(** Whatever HTTP request the task makes is the one of lines 50-55: a GET of
    the configured URL with the headers [Cookie: Authorization=<token>] and
    [Accept: application/json], where the token is the non-empty string the
    token service gave.  In particular no request is made when the token
    service gives no usable token. *)
Theorem every_request_is_the_expected_one env _config r st url headers :
  HttpGet url headers ∈ trace (final_session (process env _config r st)) →
  url = mosip_get_uin_url _config
  ∧ ∃ token, get_oauth_token env = inr (Some token) ∧ token ≠ ""
      ∧ headers = [("Cookie", "Authorization=" +:+ token);
                   ("Accept", "application/json")].
Proof.
  intros Hin.
  assert (Hall : Forall (expected_request env _config)
                   (trace (final_session (process env _config r st)))).
  { apply (trace_worker env _config (Forall (expected_request env _config))
             (expected_request env _config)); try done.
    - intros l ev Hl Hev. apply Forall_app. split; [done|by constructor].
    - intros token Htok. split; [done|]. by exists token. }
  rewrite Forall_forall in Hall. apply Hall in Hin. simpl in Hin.
  destruct Hin as (-> & token & [Hg Hne] & ->). split; [done|].
  by exists token.
Qed.

Lemma every_request_is_the_expected_one_witness :
  HttpGet "https://mosip.example/v1/uin" (request_headers "token")
    ∈ trace (final_session
               (process (sample_env (Some "token") (JStr "U1")) (sample_config 3)
                  "7" (sample_store IDGenerationRequestStatus.PENDING 0 None None)))
  ∧ "https://mosip.example/v1/uin" = mosip_get_uin_url (sample_config 3).
Proof.
  assert (H : HttpGet "https://mosip.example/v1/uin" (request_headers "token")
                ∈ trace (final_session
                           (process (sample_env (Some "token") (JStr "U1"))
                              (sample_config 3) "7"
                              (sample_store IDGenerationRequestStatus.PENDING 0
                                 None None)))).
  { vm_compute. in_list. }
  split; [exact H|].
  exact (proj1 (every_request_is_the_expected_one _ _ _ _ _ _ H)).
Defined.

(** The log line "Received access token" is written as soon as the token
    service returns, before the token is looked at: it is in the log also
    when the token is [None] or empty.  And whenever MOSIP answers 200 with
    a body that decodes, the whole body is written to the log, whether or
    not an identifier can be taken from it. *)
Theorem what_is_logged env _config r st :
  is_Some (first_queue_entry r st) →
  (∀ token, get_oauth_token env = inr token →
     LogInfo "Received access token"
       ∈ trace (final_session (process env _config r st)))
  ∧ (∀ token mosip_data, mosip_answers env _config token mosip_data →
       LogInfoUinData mosip_data
         ∈ trace (final_session (process env _config r st))).
Proof.
  intros [[i q] Hq].
  assert (Hrest : ∀ ev,
            ev ∈ trace (final_session (fetch_uin env _config (started r st))) →
            ev ∈ trace (final_session (process env _config r st))).
  { intros ev Hin. rewrite (process_found _ _ _ _ _ _ Hq).
    set (T := λ l : list Event, ev ∈ l).
    assert (Happ : ∀ l ev0, T l → True → T (l ++ [ev0])).
    { intros l ev0 Hl _. apply elem_of_app. by left. }
    assert (Hassign : ∀ uin, preserves (λ s, T (trace s)) (assign_uin env r uin))
      by (intros uin; apply (trace_assign_uin env T (λ _, True)); auto).
    assert (Hcomplete : preserves (λ s, T (trace s)) (complete_queue_entry env i))
      by (apply (trace_complete_queue_entry env T (λ _, True)); auto).
    assert (Hrecord : ∀ e, preserves (λ s, T (trace s))
                             (record_failure env _config r i e))
      by (intros e; apply (trace_record_failure env _config T (λ _, True)); auto).
    assert (Hhandler : ∀ e s,
              T (trace s) →
              T (trace (final_session
                          match record_failure env _config r i e s with
                          | Ok _ s' =>
                              logger_info
                                ("Completed ID generation request for registrant_id: "
                                   +:+ r) s'
                          | Raise e' s' => Raise e' s'
                          end))).
    { intros e s Hs. specialize (Hrecord e s Hs).
      destruct (record_failure env _config r i e s) as [[] s5|e' s5];
        simpl in *; [by apply Happ|done]. }
    unfold try_except, attempt, mbind, M_bind.
    destruct (fetch_uin env _config (started r st)) as [uin s2|e s2];
      simpl in Hin; [|by apply Hhandler].
    specialize (Hassign uin s2 Hin).
    destruct (assign_uin env r uin s2) as [[] s3|e s3]; simpl in Hassign;
      [|by apply Hhandler].
    specialize (Hcomplete s3 Hassign).
    destruct (complete_queue_entry env i s3) as [[] s4|e s4];
      simpl in Hcomplete; [|by apply Hhandler].
    simpl. apply Happ; [|done]. by apply Happ. }
  split.
  - intros token Htok. apply Hrest.
    unfold fetch_uin, oauth_token, http_get, response_json, eval.
    unfold_m. simpl. rewrite Htok. simpl.
    destruct token as [token|]; simpl; [|in_list].
    destruct (String.eqb token ""); simpl; [in_list|].
    destruct (httpx_get env _ _) as [msg|response]; simpl; [in_list|].
    destruct (status_code response =? 200); simpl; [|in_list].
    destruct (body_json response) as [msg|mosip_data]; simpl; [in_list|].
    destruct (response_uin mosip_data) as [e|uin]; simpl; [in_list|].
    destruct (truthy uin); simpl; in_list.
  - intros token mosip_data Hans.
    apply Hrest.
    rewrite (fetch_uin_answered _ _ _ _ _ Hans).
    destruct (response_uin mosip_data) as [e|uin]; [|destruct (truthy uin)];
      simpl; in_list.
Qed.

Lemma what_is_logged_witness :
  is_Some (first_queue_entry "7"
             (sample_store IDGenerationRequestStatus.PENDING 0 None None))
  ∧ LogInfo "Received access token"
      ∈ trace (final_session
                 (process (sample_env None JNull) (sample_config 3) "7"
                    (sample_store IDGenerationRequestStatus.PENDING 0 None None))).
Proof.
  assert (H : is_Some (first_queue_entry "7"
                         (sample_store IDGenerationRequestStatus.PENDING 0
                            None None)))
    by (eexists; reflexivity).
  split; [exact H|].
  exact (proj1 (what_is_logged (sample_env None JNull) (sample_config 3) "7"
                  _ H) None eq_refl).
Defined.

(** ** How often the collaborators are called *)

Lemma count_events_app p l1 l2 :
  count_events p (l1 ++ l2) = (count_events p l1 + count_events p l2)%nat.
Proof. unfold count_events. by rewrite List.filter_app, length_app. Qed.

Lemma emits_bind {A B} p n1 n2 (m : M A) (k : A → M B) :
  emits_at_most p n1 m → (∀ a, emits_at_most p n2 (k a)) →
  emits_at_most p (n1 + n2) (m ≫= k).
Proof.
  intros Hm Hk s. specialize (Hm s). unfold mbind, M_bind.
  destruct (m s) as [a s'|e s']; simpl in *; [|lia].
  specialize (Hk a s'). lia.
Qed.

Lemma emits_try_except {A} p n1 n2 (body : M A) (handler : Exc → M A) :
  emits_at_most p n1 body → (∀ e, emits_at_most p n2 (handler e)) →
  emits_at_most p (n1 + n2) (try_except body handler).
Proof.
  intros Hb Hh s. specialize (Hb s). unfold try_except.
  destruct (body s) as [a s'|e s']; simpl in *; [lia|].
  specialize (Hh e s'). lia.
Qed.

Lemma emits_emit p ev :
  emits_at_most p (if p ev then 1 else 0) (emit ev).
Proof.
  intros s. simpl. rewrite count_events_app. unfold count_events. simpl.
  destruct (p ev); simpl; lia.
Qed.

Lemma emits_commit p env n :
  (∀ st, p (Commit st) = true → (1 ≤ n)%nat) →
  (p CommitFailed = true → (1 ≤ n)%nat) →
  emits_at_most p n (commit env).
Proof.
  intros Hc Hf s. unfold commit, session_use.
  destruct (failed s); [simpl; lia|].
  destruct (session_commit env (commits s)); simpl;
    rewrite count_events_app; unfold count_events; simpl.
  - destruct (p CommitFailed); simpl; [specialize (Hf eq_refl)|]; lia.
  - pose proof (Hc (objects s)) as Hc'.
    destruct (p (Commit (objects s))); simpl; [specialize (Hc' eq_refl)|]; lia.
Qed.

Section Counting.
Variable env : Env.
Variable _config : Settings.
Variable p : Event → bool.
Variables tokens requests commit_calls : nat.
Hypothesis p_info : ∀ msg, p (LogInfo msg) = false.
Hypothesis p_uin_data : ∀ mosip_data, p (LogInfoUinData mosip_data) = false.
Hypothesis p_error : ∀ msg, p (LogError msg) = false.
Hypothesis p_token : p TokenRequested = true → (1 ≤ tokens)%nat.
Hypothesis p_request : ∀ url headers,
  p (HttpGet url headers) = true → (1 ≤ requests)%nat.
Hypothesis p_commit : ∀ st, p (Commit st) = true → (1 ≤ commit_calls)%nat.
Hypothesis p_commit_failed : p CommitFailed = true → (1 ≤ commit_calls)%nat.

Lemma emits_log_info msg : emits_at_most p 0 (logger_info msg).
Proof.
  intros s. pose proof (emits_emit p (LogInfo msg) s) as H.
  by rewrite p_info in H.
Qed.

Lemma emits_log_error msg : emits_at_most p 0 (logger_error msg).
Proof.
  intros s. pose proof (emits_emit p (LogError msg) s) as H.
  by rewrite p_error in H.
Qed.

Lemma emits_fetch_uin :
  emits_at_most p (tokens + requests) (fetch_uin env _config).
Proof.
  intros s. unfold fetch_uin, oauth_token, http_get, response_json, eval.
  unfold_m. simpl.
  assert (Htok : (count_events p [TokenRequested] ≤ tokens)%nat).
  { unfold count_events. simpl.
    destruct (p TokenRequested); simpl; [specialize (p_token eq_refl)|]; lia. }
  assert (Hreq : ∀ url headers,
            (count_events p [HttpGet url headers] ≤ requests)%nat).
  { intros url headers. unfold count_events. simpl.
    pose proof (p_request url headers) as H.
    destruct (p (HttpGet url headers)); simpl; [specialize (H eq_refl)|]; lia. }
  assert (Hinfo : ∀ msg, count_events p [LogInfo msg] = 0%nat)
    by (intros msg; unfold count_events; simpl; by rewrite p_info).
  assert (Hdata : ∀ d, count_events p [LogInfoUinData d] = 0%nat)
    by (intros d; unfold count_events; simpl; by rewrite p_uin_data).
  destruct (get_oauth_token env) as [msg|[token|]]; simpl;
    rewrite ?count_events_app, ?Hinfo; try lia.
  pose proof (Hreq (mosip_get_uin_url _config) (request_headers token)) as Hr.
  destruct (String.eqb token ""); simpl;
    rewrite ?count_events_app, ?Hinfo; try lia.
  destruct (httpx_get env _ _) as [msg|response]; simpl;
    rewrite ?count_events_app, ?Hinfo; try lia.
  destruct (status_code response =? 200); simpl;
    rewrite ?count_events_app, ?Hinfo; try lia.
  destruct (body_json response) as [msg|mosip_data]; simpl;
    rewrite ?count_events_app, ?Hinfo; try lia.
  destruct (response_uin mosip_data) as [e|uin]; simpl;
    rewrite ?count_events_app, ?Hinfo, ?Hdata; try lia.
  destruct (truthy uin); simpl;
    rewrite ?count_events_app, ?Hinfo, ?Hdata; lia.
Qed.

Lemma emits_assign_uin r uin :
  emits_at_most p commit_calls (assign_uin env r uin).
Proof.
  intros s. destruct (failed s) as [text|] eqn:Hfa.
  { rewrite (assign_uin_rolled_back _ _ _ _ _ Hfa). simpl. lia. }
  rewrite assign_uin_run by done.
  destruct (first_res_partner r (objects s)) as [[j q]|]; simpl; [|lia].
  destruct (bound_text env uin) as [u|]; simpl; [|lia].
  destruct (first_partner_with_uin u (objects s)); simpl; [lia|].
  apply (emits_commit p env commit_calls p_commit p_commit_failed
           {| db := db s; objects := assigned_store j u (objects s);
              failed := None; commits := commits s; clock := clock s;
              trace := trace s |}).
Qed.

Lemma emits_complete_queue_entry i :
  emits_at_most p commit_calls (complete_queue_entry env i).
Proof.
  intros s. destruct (failed s) as [text|] eqn:Hfa.
  { rewrite (complete_queue_entry_rolled_back _ _ _ _ Hfa). simpl. lia. }
  rewrite complete_queue_entry_run by done.
  apply (emits_commit p env commit_calls p_commit p_commit_failed
           {| db := db s;
              objects :=
                {| g2p_que_id_generation :=
                     alter (completed_attempt (datetime_utcnow env (clock s))) i
                       (g2p_que_id_generation (objects s));
                   res_partner := res_partner (objects s) |};
              failed := None; commits := commits s; clock := S (clock s);
              trace := trace s |}).
Qed.

Lemma emits_record_failure r i e :
  emits_at_most p commit_calls (record_failure env _config r i e).
Proof.
  intros s. destruct (failed s) as [text|] eqn:Hfa.
  { rewrite (record_failure_rolled_back _ _ _ _ _ _ _ Hfa). simpl.
    rewrite count_events_app. unfold count_events at 2. simpl.
    rewrite p_error. simpl. lia. }
  rewrite record_failure_run by done. cbv zeta.
  etransitivity;
    [apply (emits_commit p env commit_calls p_commit p_commit_failed)|].
  simpl. rewrite count_events_app. unfold count_events at 2. simpl.
  rewrite p_error. simpl. lia.
Qed.

Lemma emits_worker r :
  emits_at_most p (tokens + requests + 3 * commit_calls)
    (id_generation_request_worker env _config r).
Proof.
  intros s. unfold id_generation_request_worker.
  assert (H : emits_at_most p
                (0 + (0 + (((tokens + requests)
                            + (commit_calls + (commit_calls + 0))
                            + commit_calls) + 0)))
                (id_generation_request_worker env _config r)).
  { unfold id_generation_request_worker.
    apply emits_bind; [apply emits_log_info|intros _].
    apply emits_bind;
      [intros s0; unfold query_queue_entry, session_use;
       destruct (failed s0); simpl; lia|].
    intros [i|].
    2:{ intros s0. pose proof (emits_log_error
                                 ("No queue entry found for registrant_id: "
                                    +:+ r) s0). lia. }
    apply emits_bind; [|intros _; apply emits_log_info].
    apply emits_try_except; [|intros e; apply emits_record_failure].
    unfold attempt.
    apply emits_bind; [apply emits_fetch_uin|intros uin].
    apply emits_bind; [apply emits_assign_uin|intros _].
    apply emits_bind; [apply emits_complete_queue_entry|intros _].
    apply emits_log_info. }
  specialize (H s). unfold id_generation_request_worker in H. lia.
Qed.
End Counting.

(** One invocation asks the token service at most once, calls MOSIP at
    most once and commits at most three times, on every path: nothing is
    retried inside the task. *)
Theorem nothing_is_retried env _config r st :
  (count_events is_token_request
     (trace (final_session (process env _config r st))) ≤ 1)%nat
  ∧ (count_events is_http_get
       (trace (final_session (process env _config r st))) ≤ 1)%nat
  ∧ (count_events is_commit_call
       (trace (final_session (process env _config r st))) ≤ 3)%nat.
Proof.
  split; [|split].
  - pose proof (emits_worker env _config is_token_request 1 0 0) as H.
    specialize (H ltac:(done) ltac:(done) ltac:(done) ltac:(done)
                  ltac:(done) ltac:(done) ltac:(done) r (open_session st)).
    exact H.
  - pose proof (emits_worker env _config is_http_get 0 1 0) as H.
    specialize (H ltac:(done) ltac:(done) ltac:(done) ltac:(done)
                  ltac:(done) ltac:(done) ltac:(done) r (open_session st)).
    exact H.
  - pose proof (emits_worker env _config is_commit_call 0 0 1) as H.
    specialize (H ltac:(done) ltac:(done) ltac:(done) ltac:(done)
                  ltac:(done) ltac:(done) ltac:(done) r (open_session st)).
    exact H.
Qed.

(** * Beyond the claims: what ends up in the error detail, and replays *)

(** When MOSIP answers 200 with a body that has no [response.uin], the
    error detail recorded on the queue entry is the bare text of the
    interpreter's exception: ['uin'] when the key [uin] is missing,
    "'NoneType' object is not subscriptable" when [response] is missing or
    null, "'list' object has no attribute 'get'" when the body is a list. *)
Theorem malformed_body_error_detail env _config r st i q token mosip_data :
  first_queue_entry r st = Some (i, q) →
  mosip_answers env _config token mosip_data →
  session_commit env 0 = None →
  (∀ items inner,
     mosip_data = JObj items →
     dict_lookup "response" items = Some (JObj inner) →
     dict_lookup "uin" inner = None →
     last_attempt_error_code_request
       <$> g2p_que_id_generation (store_after env _config r st) !! i
     = Some (Some "'uin'"))
  ∧ (∀ items,
       mosip_data = JObj items →
       dict_lookup "response" items = None
       ∨ dict_lookup "response" items = Some JNull →
       last_attempt_error_code_request
         <$> g2p_que_id_generation (store_after env _config r st) !! i
       = Some (Some "'NoneType' object is not subscriptable"))
  ∧ (∀ items,
       mosip_data = JArr items →
       last_attempt_error_code_request
         <$> g2p_que_id_generation (store_after env _config r st) !! i
       = Some (Some "'list' object has no attribute 'get'")).
Proof.
  intros Hq Hans Hc.
  assert (Hdetail : ∀ e,
            response_uin mosip_data = inl e →
            last_attempt_error_code_request
              <$> g2p_que_id_generation (store_after env _config r st) !! i
            = Some (Some (str_exc e))).
  { intros e He.
    assert (Hfail : later_step_fails env _config r st e)
      by (by eapply uin_field_missing).
    destruct (failure_run _ _ _ _ _ _ _ Hq Hfail Hc) as (evs & Hrun & _).
    apply first_queue_entry_lookup in Hq as [Hi _].
    unfold store_after. rewrite Hrun. simpl.
    by rewrite list_lookup_alter_eq, Hi. }
  split; [|split].
  - intros items inner -> Hr Hu.
    apply (Hdetail (KeyError "uin")).
    unfold response_uin, py_get, py_getitem. rewrite Hr. simpl. by rewrite Hu.
  - intros items -> Hr.
    apply (Hdetail (TypeError "'NoneType' object is not subscriptable")).
    unfold response_uin, py_get, py_getitem. by destruct Hr as [-> | ->].
  - intros items ->.
    by apply (Hdetail (AttributeError "'list' object has no attribute 'get'")).
Qed.

Lemma malformed_body_error_detail_witness :
  first_queue_entry "7"
    (sample_store IDGenerationRequestStatus.PENDING 0 None None)
    = Some (0%nat, sample_entry IDGenerationRequestStatus.PENDING 0)
  ∧ mosip_answers (sample_env_without_uin (Some "token")) (sample_config 3)
      "token" (JObj [("response", JObj [])])
  ∧ last_attempt_error_code_request
      <$> g2p_que_id_generation
            (store_after (sample_env_without_uin (Some "token")) (sample_config 3)
               "7" (sample_store IDGenerationRequestStatus.PENDING 0 None None))
            !! 0%nat
    = Some (Some "'uin'").
Proof.
  assert (H1 : first_queue_entry "7"
                 (sample_store IDGenerationRequestStatus.PENDING 0 None None)
               = Some (0%nat, sample_entry IDGenerationRequestStatus.PENDING 0))
    by reflexivity.
  assert (H2 : mosip_answers (sample_env_without_uin (Some "token"))
                 (sample_config 3) "token" (JObj [("response", JObj [])])).
  { eexists. split; [split; [reflexivity|discriminate]|].
    split; [reflexivity|]. split; reflexivity. }
  split; [exact H1|]. split; [exact H2|].
  exact (proj1 (malformed_body_error_detail
                  (sample_env_without_uin (Some "token")) (sample_config 3) "7"
                  _ _ _ "token" _ H1 H2 eq_refl)
           [("response", JObj [])] [] eq_refl eq_refl eq_refl).
Defined.

(** ** Replaying a completed request *)

Lemma first_queue_entry_alter r st i q f rest :
  first_queue_entry r st = Some (i, q) →
  registrant_id (f q) = registrant_id q →
  first_queue_entry r
    {| g2p_que_id_generation := alter f i (g2p_que_id_generation st);
       res_partner := rest |}
  = Some (i, f q).
Proof.
  unfold first_queue_entry. simpl. intros Hq Hf.
  apply list_find_Some in Hq as (Hi & Hr & Hbefore).
  apply list_find_Some. split; [by rewrite list_lookup_alter_eq, Hi|].
  split; [congruence|].
  intros k q' Hk Hlt. rewrite list_lookup_alter_ne in Hk by lia.
  by apply (Hbefore k).
Qed.

Lemma first_res_partner_alter r st j p f rest :
  first_res_partner r st = Some (j, p) →
  id (f p) = id p →
  first_res_partner r
    {| g2p_que_id_generation := rest;
       res_partner := alter f j (res_partner st) |}
  = Some (j, f p).
Proof.
  unfold first_res_partner. simpl. intros Hp Hf.
  apply list_find_Some in Hp as (Hj & Hr & Hbefore).
  apply list_find_Some. split; [by rewrite list_lookup_alter_eq, Hj|].
  split; [congruence|].
  intros k p' Hk Hlt. rewrite list_lookup_alter_ne in Hk by lia.
  by apply (Hbefore k).
Qed.

(** The task is not idempotent.  After an invocation that completed the
    request with an identifier, a second invocation to which MOSIP returns
    the same identifier (one the driver binds in the query of line 80, both
    times) finds it on the registrant, raises the duplicate failure, and
    records it on the completed entry: a second attempt is
    counted, the error detail names the identifier, the registrants stay
    as they were, and the status is FAILED once the count has reached the
    maximum and COMPLETED below it. *)
Theorem replay_with_the_same_identifier env env' _config r st i q j p u :
  first_queue_entry r st = Some (i, q) →
  mosip_returns env _config (JStr u) → u ≠ "" →
  binds env u = true →
  first_res_partner r st = Some (j, p) →
  ¬ held_by_some u st →
  session_commit env 0 = None → session_commit env 1 = None →
  mosip_returns env' _config (JStr u) →
  binds env' u = true →
  session_commit env' 0 = None →
  res_partner (replay [env; env'] _config r st)
    = res_partner (replay [env] _config r st)
  ∧ g2p_que_id_generation (replay [env; env'] _config r st) !! i
    = Some {| registrant_id := registrant_id q;
              number_of_attempts_request := number_of_attempts_request q + 2;
              id_generation_request_status :=
                if max_id_generation_request_attempts _config
                     <=? number_of_attempts_request q + 2
                then IDGenerationRequestStatus.FAILED
                else IDGenerationRequestStatus.COMPLETED;
              id_generation_update_status := IDGenerationUpdateStatus.PENDING;
              last_attempt_datetime_request := Some (datetime_utcnow env' 0);
              last_attempt_error_code_request :=
                Some ("MOSIP ID " +:+ u
                        +:+ " is already present in res_partner.unique_id") |}.
Proof.
  intros Hq Hret Hne Hb Hp Hfree Hc0 Hc1 Hret' Hb' Hc0'. simpl.
  destruct (success_run _ _ _ _ _ _ _ _ _ Hq Hret Hne Hb Hp Hfree Hc0 Hc1)
    as (token & mosip_data & _ & Hrun).
  assert (Hst : store_after env _config r st
                = completed_store (datetime_utcnow env 0) i j u st)
    by (unfold store_after; by rewrite Hrun).
  rewrite Hst.
  assert (Hq1 : first_queue_entry r
                  (completed_store (datetime_utcnow env 0) i j u st)
                = Some (i, completed_attempt (datetime_utcnow env 0) q))
    by (by apply first_queue_entry_alter).
  assert (Hp1 : first_res_partner r
                  (completed_store (datetime_utcnow env 0) i j u st)
                = Some (j, set_unique_id (Some u) p))
    by (by apply first_res_partner_alter).
  assert (Hheld : held_by_some u
                    (completed_store (datetime_utcnow env 0) i j u st)).
  { exists j, (set_unique_id (Some u) p). split; [|done]. simpl.
    apply list_find_Some in Hp as (Hj & _).
    by rewrite list_lookup_alter_eq, Hj. }
  assert (Hfail : later_step_fails env' _config r
                    (completed_store (datetime_utcnow env 0) i j u st)
                    (UinAlreadyPresent u)).
  { apply uin_already_present; try done; by rewrite Hp1. }
  destruct (failure_run _ _ _ _ _ _ _ Hq1 Hfail Hc0') as (evs & Hrun' & _).
  unfold store_after at 1 2. rewrite Hrun'. simpl. split; [done|].
  apply first_queue_entry_lookup in Hq as [Hi _].
  rewrite !list_lookup_alter_eq, Hi. simpl. unfold failed_attempt. simpl.
  replace (number_of_attempts_request q + 1 + 1)
    with (number_of_attempts_request q + 2) by lia.
  reflexivity.
Qed.

Lemma replay_with_the_same_identifier_witness :
  first_queue_entry "7"
    (sample_store IDGenerationRequestStatus.PENDING 0 None None)
    = Some (0%nat, sample_entry IDGenerationRequestStatus.PENDING 0)
  ∧ first_res_partner "7"
      (sample_store IDGenerationRequestStatus.PENDING 0 None None)
    = Some (0%nat, {| id := "7"; unique_id := None |})
  ∧ ¬ held_by_some "U1"
        (sample_store IDGenerationRequestStatus.PENDING 0 None None)
  ∧ res_partner
      (replay [sample_env (Some "token") (JStr "U1");
               sample_env (Some "token") (JStr "U1")] (sample_config 2) "7"
         (sample_store IDGenerationRequestStatus.PENDING 0 None None))
    = res_partner
        (replay [sample_env (Some "token") (JStr "U1")] (sample_config 2) "7"
           (sample_store IDGenerationRequestStatus.PENDING 0 None None)).
Proof.
  assert (H1 : first_queue_entry "7"
                 (sample_store IDGenerationRequestStatus.PENDING 0 None None)
               = Some (0%nat, sample_entry IDGenerationRequestStatus.PENDING 0))
    by reflexivity.
  assert (H2 : first_res_partner "7"
                 (sample_store IDGenerationRequestStatus.PENDING 0 None None)
               = Some (0%nat, {| id := "7"; unique_id := None |}))
    by reflexivity.
  assert (H3 : ¬ held_by_some "U1"
                 (sample_store IDGenerationRequestStatus.PENDING 0 None None)).
  { intros (k & p & Hl & Hu).
    destruct k as [|[|k]]; simpl in Hl; [| |done];
      injection Hl as <-; discriminate Hu. }
  assert (H4 : "U1" ≠ "") by discriminate.
  split; [exact H1|]. split; [exact H2|]. split; [exact H3|].
  exact (proj1 (replay_with_the_same_identifier
                  (sample_env (Some "token") (JStr "U1"))
                  (sample_env (Some "token") (JStr "U1")) (sample_config 2) "7"
                  _ _ _ _ _ "U1" H1
                  (sample_env_returns "token" (JStr "U1") 2 sample_token_nonempty)
                  H4 eq_refl H2 H3 eq_refl eq_refl
                  (sample_env_returns "token" (JStr "U1") 2 sample_token_nonempty)
                  eq_refl eq_refl)).
Defined.

(** ** The exceptions the handler can receive *)

(** When the commits go through, an invocation that finds the queue entry
    ends in one of two ways only: the entry is completed, or it carries the
    bookkeeping of one of the failing steps of lines 43-86, in the
    circumstances listed for that step and with the text of its exception as
    error detail; among them the query of line 80 refusing the UIN, a value
    that is no string or a string the driver does not bind.  The handler
    never records anything else. *)
Theorem completed_or_known_failure env _config r st i q :
  first_queue_entry r st = Some (i, q) →
  commits_succeed env →
  g2p_que_id_generation (store_after env _config r st) !! i
    = Some (completed_attempt (datetime_utcnow env 0) q)
  ∨ ∃ e, later_step_fails env _config r st e
      ∧ g2p_que_id_generation (store_after env _config r st) !! i
        = Some (failed_attempt _config (datetime_utcnow env 0) e q).
Proof.
  intros Hq Hc.
  pose proof Hq as Hi. apply first_queue_entry_lookup in Hi as [Hi _].
  destruct (process_paths env _config r st i q Hq)
    as [(j & p & u & _ & _ & _ & _ & _ & _ & _ & _ & Hst)
       |[(e & Hfail & _ & _ & Hst)
       |[(e & msg & s & _ & Hk & _)
       |[(j & p & u & msg & s & _ & _ & _ & _ & _ & Hk & _)
       |(j & p & u & msg & s & _ & _ & _ & _ & _ & _ & Hk & _)]]]];
    try (by rewrite Hc in Hk).
  - left. rewrite Hst. simpl. by rewrite list_lookup_alter_eq, Hi.
  - right. exists e. split; [done|].
    rewrite Hst. simpl. by rewrite list_lookup_alter_eq, Hi.
Qed.

Lemma completed_or_known_failure_witness :
  first_queue_entry "7"
    (sample_store IDGenerationRequestStatus.PENDING 0 None None)
    = Some (0%nat, sample_entry IDGenerationRequestStatus.PENDING 0)
  ∧ commits_succeed (sample_env None JNull)
  ∧ (g2p_que_id_generation
       (store_after (sample_env None JNull) (sample_config 3) "7"
          (sample_store IDGenerationRequestStatus.PENDING 0 None None)) !! 0%nat
     = Some (completed_attempt (datetime_utcnow (sample_env None JNull) 0)
               (sample_entry IDGenerationRequestStatus.PENDING 0))
     ∨ ∃ e, later_step_fails (sample_env None JNull) (sample_config 3) "7"
              (sample_store IDGenerationRequestStatus.PENDING 0 None None) e
         ∧ g2p_que_id_generation
             (store_after (sample_env None JNull) (sample_config 3) "7"
                (sample_store IDGenerationRequestStatus.PENDING 0 None None))
             !! 0%nat
           = Some (failed_attempt (sample_config 3)
                     (datetime_utcnow (sample_env None JNull) 0) e
                     (sample_entry IDGenerationRequestStatus.PENDING 0))).
Proof.
  assert (H1 : first_queue_entry "7"
                 (sample_store IDGenerationRequestStatus.PENDING 0 None None)
               = Some (0%nat, sample_entry IDGenerationRequestStatus.PENDING 0))
    by reflexivity.
  assert (H2 : commits_succeed (sample_env None JNull))
    by (intros k; reflexivity).
  split; [exact H1|]. split; [exact H2|].
  exact (completed_or_known_failure (sample_env None JNull) (sample_config 3)
           "7" _ _ _ H1 H2).
Defined.
